(** * MatrixReduction: transfer-function reduced-order models and projection matrices

    A shallow embedding of the two notebooks of the repository
    (the POD-Galerkin transfer-function notebook and the projection-matrix
    notebook).  The linear algebra is read in exact arithmetic: the entries
    of the arrays are elements of an algebraically closed field with an order
    on its real part, NumPy arrays are matrices whose shape is a run-time
    value, and Python exceptions are the [Raise] outcomes of a result monad.
    The cell that selects a number of modes by the energy criterion compares
    rounded numbers, and is embedded on binary64 floating-point numbers. *)

From HB Require Import structures.
From Stdlib Require Import String Floats.
From Stdlib Require QArith.
From mathcomp Require Import ssreflect ssrfun ssrbool eqtype ssrnat seq div.
From mathcomp Require Import choice.
From mathcomp Require Import fintype finfun bigop order ssralg ssrnum ssrint rat.
From mathcomp Require Import matrix algC.

Set Implicit Arguments.
Unset Strict Implicit.
Unset Printing Implicit Defensive.

Import GRing.Theory Num.Theory Order.Theory.
Local Open Scope ring_scope.

(** ** Python exceptions and the result monad *)

Module Py.

Inductive exn : Type :=
| ValueError of string
| LinAlgError of string
| AssertionError
| AttributeError of string
| InversionError
| AccuracyError
| UnboundLocalError
| LoopBudgetExhausted.

Inductive result (A : Type) : Type :=
| Ok of A
| Raise of exn.

Arguments Ok {A} _.
Arguments Raise {A} _.

Definition bind {A B : Type} (x : result A) (f : A -> result B) : result B :=
  match x with
  | Ok a => f a
  | Raise e => Raise e
  end.

Definition assert (b : bool) : result unit :=
  if b then Ok tt else Raise AssertionError.

Definition is_ok {A : Type} (x : result A) : bool :=
  if x is Ok _ then true else false.

(** A list comprehension whose body may raise: the elements are computed
    first to last and the first exception ends the comprehension. *)
Fixpoint comprehension {A B : Type} (f : A -> result B) (s : seq A) :
  result (seq B) :=
  if s is x :: s' then
    match f x with
    | Ok y => match comprehension f s' with
              | Ok ys => Ok (y :: ys)
              | Raise e => Raise e
              end
    | Raise e => Raise e
    end
  else Ok [::].

End Py.

Import Py.

Notation "x <- e1 ;; e2" := (Py.bind e1 (fun x => e2))
  (at level 61, e1 at next level, right associativity).
Notation "' p <- e1 ;; e2" := (Py.bind e1 (fun p => e2))
  (at level 61, p pattern, e1 at next level, right associativity).
Notation "e1 ;;; e2" := (Py.bind e1 (fun _ : unit => e2))
  (at level 61, right associativity).

(** ** NumPy: two-dimensional arrays with a run-time shape *)

Module Numpy.
Section Arrays.

Variable K : numClosedFieldType.

(** A 2-D [numpy.ndarray]: the shape is part of the value, as in Python. *)
Record ndarray : Type :=
  Ndarray { nrows : nat; ncols : nat; data : 'M[K]_(nrows, ncols) }.

Definition shape (X : ndarray) : nat * nat := (nrows X, ncols X).

(** [X[i, j]] at natural-number indices (0 outside the shape; the operations
    below only read inside it). *)
Definition item (X : ndarray) (i j : nat) : K :=
  match insub i, insub j with
  | Some i', Some j' => data X (i' : 'I_(nrows X)) (j' : 'I_(ncols X))
  | _, _ => 0
  end.

(** The entries of [X] read at a given shape. *)
Definition as_mx (m k : nat) (X : ndarray) : 'M[K]_(m, k) :=
  \matrix_(i, j) item X i j.

(** [np.eye(n)] *)
Definition eye (n : nat) : ndarray := Ndarray (1%:M : 'M[K]_n).

(** [X.T] *)
Definition transpose (X : ndarray) : ndarray := Ndarray (data X)^T.

(** [np.conjugate(X)], [X.conj()] *)
Definition conjugate (X : ndarray) : ndarray :=
  Ndarray (map_mx Num.conj (data X)).

(** [s * X] for a scalar [s] *)
Definition scale (s : K) (X : ndarray) : ndarray := Ndarray (s *: data X).

(** [X @ Y], [np.matmul(X, Y)]: the inner dimensions must agree. *)
Definition matmul (X Y : ndarray) : result ndarray :=
  if ncols X == nrows Y
  then Ok (Ndarray (data X *m as_mx (ncols X) (ncols Y) Y))
  else Raise (ValueError
         "matmul: Input operand 1 has a mismatch in its core dimension 0").

(** [X.toarray()]: a method of SciPy's sparse matrices, which a NumPy array
    does not have. *)
Definition toarray (X : ndarray) : result ndarray :=
  Raise (AttributeError "'numpy.ndarray' object has no attribute 'toarray'").

(** [np.linalg.inv(X)]: [X] must be square and invertible.  The test for
    invertibility is the exact one; LAPACK decides on the rounded pivots. *)
Definition inv (X : ndarray) : result ndarray :=
  if nrows X == ncols X then
    let X' : 'M[K]_(nrows X) := as_mx (nrows X) (nrows X) X in
    if X' \in unitmx then Ok (Ndarray (invmx X'))
    else Raise (LinAlgError "Singular matrix")
  else Raise (LinAlgError "Last 2 dimensions of the array must be square").

(** NumPy broadcasting of one axis: equal lengths, or one of them is 1. *)
Definition broadcast_dim (a b : nat) : option nat :=
  if a == b then Some a
  else if a == 1%N then Some b
  else if b == 1%N then Some a
  else None.

(** [X[i, j]] after broadcasting: an axis of length 1 is repeated. *)
Definition broadcast_item (X : ndarray) (i j : nat) : K :=
  item X (if nrows X == 1%N then 0%N else i) (if ncols X == 1%N then 0%N else j).

(** [X - Y] *)
Definition subtract (X Y : ndarray) : result ndarray :=
  match broadcast_dim (nrows X) (nrows Y), broadcast_dim (ncols X) (ncols Y) with
  | Some m, Some k =>
      Ok (Ndarray (\matrix_(i < m, j < k)
                     (broadcast_item X i j - broadcast_item Y i j)))
  | _, _ => Raise (ValueError "operands could not be broadcast together")
  end.

(** [np.diag(b)] for a 1-D array [b] *)
Definition diag (b : seq K) : ndarray :=
  Ndarray (\matrix_(i < size b, j < size b)
             (if i == j :> nat then nth 0 b i else 0)).

(** [X[:, :k]] *)
Definition take_columns (X : ndarray) (k : nat) : ndarray :=
  Ndarray (as_mx (nrows X) (minn k (ncols X)) X).

(** [np.hstack(L)] for a list of 2-D arrays *)
Fixpoint hstack (L : seq ndarray) : result ndarray :=
  match L with
  | [::] => Raise (ValueError "need at least one array to concatenate")
  | X :: L' =>
      if L' is [::] then Ok X
      else
        Y <- hstack L' ;;
        if nrows X == nrows Y
        then Ok (Ndarray (row_mx (data X) (as_mx (nrows X) (ncols Y) Y)))
        else Raise (ValueError
          "all the input array dimensions except for the concatenation axis must match exactly")
  end.

(** The process-global generator behind [np.random]: the sequence of
    standard uniform variates it is going to deliver, and how many of them
    have been consumed. *)
Record RandomState : Type :=
  MkRandomState { stream : nat -> K; position : nat }.

(** [np.random.uniform(low, high, size=(size,))] on the global generator:
    each sample is [low + (high - low) * u] for the next variate [u].  The
    product and the sum are exact here; NumPy rounds them, and a rounded
    sample can be [high] itself. *)
Definition uniform (low high : K) (size : nat) (st : RandomState) :
  seq K * RandomState :=
  ([seq low + (high - low) * stream st (position st + i) | i <- iota 0 size],
   MkRandomState (stream st) (position st + size)).

End Arrays.

Section Norms.

Variable K : numClosedFieldType.

(** The orders of [np.linalg.norm] on a 2-D array that are computed entry by
    entry: the Frobenius norm ([None], ['fro']), [np.inf] and [1].  The
    spectral orders ([2], [-2], ['nuc']) need the singular values and are
    not part of the development. *)
Inductive norm_order : Type :=
| OrdFro
| OrdInf
| OrdOne.

(** [x.max()] on a 1-D array: the reduction has no identity, an empty array
    raises. *)
Definition amax (x : seq K) : result K :=
  if x is y :: x' then Ok (foldl Num.max y x')
  else Raise (ValueError
    "zero-size array to reduction operation maximum which has no identity").

(** [add.reduce(abs(X), axis=1)] and [add.reduce(abs(X), axis=0)] *)
Definition row_sums (X : ndarray K) : seq K :=
  [seq \sum_j `|data X i j| | i <- enum 'I_(nrows X)].

Definition column_sums (X : ndarray K) : seq K :=
  [seq \sum_i `|data X i j| | j <- enum 'I_(ncols X)].

(** [np.linalg.norm(X, ord)]: the square root of the sum of the squared
    moduli, the largest row sum of the moduli ([np.inf]), the largest column
    sum ([1]).  The values are the exact ones; in binary64 the squares of the
    Frobenius norm can underflow, the moduli and their sums cannot vanish
    for a non-zero array. *)
Definition linalg_norm (X : ndarray K) (ord : norm_order) : result K :=
  match ord with
  | OrdFro => Ok (sqrtC (\sum_i \sum_j `|data X i j| ^+ 2))
  | OrdInf => amax (row_sums X)
  | OrdOne => amax (column_sums X)
  end.

End Norms.
End Numpy.

Import Numpy.
Arguments eye : clear implicits.

(** ** pyMOR: vector arrays *)

Module Pymor.
Section VectorArrays.

Variable K : numClosedFieldType.

(** A [NumpyVectorArray]: the vectors are the rows of the wrapped array
    ([to_numpy]); [dim] is the dimension of its [NumpyVectorSpace]. *)
Record VectorArray : Type := NumpyVectorArray { to_numpy : ndarray K }.

Definition dim (A : VectorArray) : nat := ncols (to_numpy A).

(** [NumpyVectorSpace(d).make_array(X)]: the rows of [X] must have length [d]. *)
Definition make_array (d : nat) (X : ndarray K) : result VectorArray :=
  assert (ncols X == d) ;;; Ok (NumpyVectorArray X).

(** The vectors of an array, first to last, and the array of a list of
    vectors. *)
Definition vectors (A : VectorArray) : seq 'rV[K]_(dim A) :=
  [seq row i (data (to_numpy A)) | i <- enum 'I_(nrows (to_numpy A))].

Definition of_vectors (n : nat) (s : seq 'rV[K]_n) : VectorArray :=
  NumpyVectorArray
    (Ndarray (\matrix_(i < size s, j < n) (nth 0 s i) 0 j)).

(** [U.inner(V)] for single vectors: the Euclidean inner product of pyMOR,
    conjugating its first argument. *)
Definition inner (n : nat) (u v : 'rV[K]_n) : K :=
  \sum_k (u 0 k)^* * v 0 k.

(** [U.norm()] *)
Definition norm (n : nat) (u : 'rV[K]_n) : K := sqrtC (inner u u).

(** [space.empty()] *)
Definition empty (d : nat) : VectorArray :=
  NumpyVectorArray (Ndarray (0 : 'M[K]_(0, d))).

(** [A.append(B)]: both arrays must belong to the same space. *)
Definition append (A B : VectorArray) : result VectorArray :=
  assert (dim B == dim A) ;;;
  Ok (NumpyVectorArray
        (Ndarray (col_mx (data (to_numpy A))
                         (as_mx (nrows (to_numpy B)) (dim A) (to_numpy B))))).

(** [A.inner(B)], the matrix [A.conj() @ B.T] of inner products. *)
Definition inner_array (A B : VectorArray) : result (ndarray K) :=
  assert (dim A == dim B) ;;;
  matmul (conjugate (to_numpy A)) (transpose (to_numpy B)).

(** [A[:k]] *)
Definition take_vectors (A : VectorArray) (k : nat) : VectorArray :=
  NumpyVectorArray
    (Ndarray (as_mx (minn k (nrows (to_numpy A))) (dim A) (to_numpy A))).

(** [A.lincomb(coefficients)], the array [coefficients @ A]. *)
Definition lincomb (A : VectorArray) (coefficients : ndarray K) :
  result VectorArray :=
  assert (ncols coefficients == nrows (to_numpy A)) ;;;
  X <- matmul coefficients (to_numpy A) ;;
  Ok (NumpyVectorArray X).

End VectorArrays.

(** *** Operators, parameter functionals and stationary models *)

Section Models.

Variable K : numClosedFieldType.

(** [NumpyMatrixOperator(matrix)]: an operator from the space of dimension
    [source] (the columns) to the space of dimension [range] (the rows).
    The matrix is a NumPy array; operators that wrap a SciPy sparse matrix
    are not part of the development. *)
Record matrix_operator : Type := NumpyMatrixOperator { matrix : ndarray K }.

Definition source (op : matrix_operator) : nat := ncols (matrix op).
Definition range (op : matrix_operator) : nat := nrows (matrix op).

(** [to_matrix(op)] *)
Definition to_matrix (op : matrix_operator) : ndarray K := matrix op.

(** A matrix handed to the notebooks: a NumPy array or a pyMOR operator
    (the two cases of [isinstance(X, np.ndarray)]). *)
Inductive pyinput : Type :=
| FromArray of ndarray K
| FromOperator of matrix_operator.

(** [X if isinstance(X, np.ndarray) else to_matrix(X)] *)
Definition to_array (X : pyinput) : ndarray K :=
  match X with
  | FromArray X => X
  | FromOperator X => to_matrix X
  end.

(** [op.H], the adjoint operator, of matrix [matrix.T.conj()]. *)
Definition H (op : matrix_operator) : matrix_operator :=
  NumpyMatrixOperator (conjugate (transpose (matrix op))).

(** [op.apply(U)], the array [U @ matrix.T]. *)
Definition apply (op : matrix_operator) (U : VectorArray K) :
  result (VectorArray K) :=
  assert (dim U == source op) ;;;
  X <- matmul (to_numpy U) (transpose (matrix op)) ;;
  Ok (NumpyVectorArray X).

(** [op.apply_adjoint(V)], the array [V @ matrix.conj()]. *)
Definition apply_adjoint (op : matrix_operator) (V : VectorArray K) :
  result (VectorArray K) :=
  assert (dim V == range op) ;;;
  X <- matmul (to_numpy V) (conjugate (matrix op)) ;;
  Ok (NumpyVectorArray X).

(** [op.as_range_array()]: the columns of the matrix as vectors. *)
Definition as_range_array (op : matrix_operator) : VectorArray K :=
  NumpyVectorArray (transpose (matrix op)).

(** [op.apply_inverse(V)]: the dense solve [matrix x = v] for every vector
    [v] of [V]; a singular (or non-square) matrix raises [InversionError].
    The test for singularity is the exact one; the solver of the library
    decides on the rounded pivots. *)
Definition apply_inverse (op : matrix_operator) (V : VectorArray K) :
  result (VectorArray K) :=
  assert (dim V == range op) ;;;
  if range op == source op then
    let M : 'M[K]_(range op) := as_mx (range op) (range op) (matrix op) in
    let B := as_mx (range op) (nrows (to_numpy V)) (transpose (to_numpy V)) in
    if M \in unitmx
    then Ok (NumpyVectorArray (Ndarray (invmx M *m B)^T))
    else Raise InversionError
  else Raise InversionError.

(** Parameter functionals of the single parameter [s], and numbers used as
    coefficients. *)
Inductive functional : Type :=
| ProjectionParameterFunctional
| ConjugateParameterFunctional of functional
| Number of K.

Fixpoint evaluate (f : functional) (mu : K) : K :=
  match f with
  | ProjectionParameterFunctional => mu
  | ConjugateParameterFunctional g => (evaluate g mu)^*
  | Number c => c
  end.

Record lincomb_operator : Type :=
  Lincomb { operators : seq matrix_operator; coefficients : seq functional }.

(** [LincombOperator(operators, coefficients)] with the assertions of its
    constructor: at least one operator, as many coefficients, and a common
    source and range. *)
Definition LincombOperator (ops : seq matrix_operator)
    (coeffs : seq functional) : result lincomb_operator :=
  match ops with
  | [::] => Raise AssertionError
  | op0 :: ops' =>
      assert (size ops == size coeffs) ;;;
      assert (all (fun op => source op == source op0) ops') ;;;
      assert (all (fun op => range op == range op0) ops') ;;;
      Ok (Lincomb ops coeffs)
  end.

Definition lincomb_source (L : lincomb_operator) : nat :=
  if operators L is op0 :: _ then source op0 else 0%N.

Definition lincomb_range (L : lincomb_operator) : nat :=
  if operators L is op0 :: _ then range op0 else 0%N.

(** [L.assemble(mu)], the operator of matrix
    [sum_i coefficients[i](mu) * operators[i].matrix]. *)
Definition assemble (L : lincomb_operator) (mu : K) : matrix_operator :=
  NumpyMatrixOperator
    (Ndarray (\sum_(p <- zip (coefficients L) (operators L))
                evaluate p.1 mu *:
                as_mx (lincomb_range L) (lincomb_source L) (matrix p.2))).

Record stationary_model : Type :=
  Model { operator : lincomb_operator;
          rhs : matrix_operator;
          output_functional : option matrix_operator }.

(** [StationaryModel(operator, rhs, output_functional)] with the assertions
    of its constructor: [rhs.range == operator.range],
    [rhs.source.is_scalar] and
    [output_functional.source == operator.source]. *)
Definition StationaryModel (operator : lincomb_operator)
    (rhs : matrix_operator) (output_functional : option matrix_operator) :
  result stationary_model :=
  assert (range rhs == lincomb_range operator) ;;;
  assert (source rhs == 1%N) ;;;
  assert (if output_functional is Some out
          then source out == lincomb_source operator else true) ;;;
  Ok (Model operator rhs output_functional).

(** [model.order], the dimension of the solution space. *)
Definition order (m : stationary_model) : nat := lincomb_source (operator m).

(** [model.solve(mu)] *)
Definition solve (m : stationary_model) (mu : K) : result (VectorArray K) :=
  apply_inverse (assemble (operator m) mu) (as_range_array (rhs m)).

(** [model.output(mu)]: the output functional applied to the solution, as a
    NumPy array with one row per solution vector. *)
Definition output (m : stationary_model) (mu : K) : result (ndarray K) :=
  U <- solve m mu ;;
  match output_functional m with
  | Some out => Y <- apply out U ;; Ok (to_numpy Y)
  | None => Ok (Ndarray (0 : 'M[K]_(nrows (to_numpy U), 0)))
  end.

End Models.

(** *** The orthogonality error of an array of vectors *)

Section OrthogonalityError.

Variable K : numClosedFieldType.
Variable n : nat.

(** [A.inner(A) - np.eye(len(A))], entry by entry. *)
Definition error_matrix (Q : seq 'rV[K]_n) : seq K :=
  [seq inner (nth 0 Q i) (nth 0 Q j) - (i == j)%:R
     | i <- iota 0 (size Q), j <- iota 0 (size Q)].

(** [np.max(np.abs(E))] *)
Definition max_abs (E : seq K) : K := foldr Num.max 0 [seq `|x| | x <- E].

End OrthogonalityError.

(** *** Galerkin projection: [StationaryRBReductor] *)

Section Reductors.

Variable K : numClosedFieldType.

Record reductor : Type :=
  Reductor { fom : stationary_model K; RB : VectorArray K }.

(** The default [check_tol] of a reductor, 1e-3. *)
Definition reductor_check_tol : K := (10%:R ^+ 3)^-1.

(** The check of a reductor on its basis, with the defaults
    [check_orthonormality=True] and [check_tol=1e-3]: [AccuracyError] when an
    entry of [RB.inner(RB) - I] reaches the tolerance. *)
Definition check_orthonormality (RB : VectorArray K) : result unit :=
  let E := error_matrix (vectors RB) in
  if (0 < size E)%N && (reductor_check_tol <= max_abs E)
  then Raise AccuracyError else Ok tt.

(** [StationaryRBReductor(fom, RB=RB)]: the basis must lie in the solution
    space of the model and be orthonormal. *)
Definition StationaryRBReductor (fom : stationary_model K) (RB : VectorArray K) :
  result reductor :=
  assert (dim RB == order fom) ;;;
  check_orthonormality RB ;;;
  Ok (Reductor fom RB).

(** [project(op, RB, RB)], of matrix [RB.inner(op.apply(RB))]. *)
Definition project_operator (basis : VectorArray K) (op : matrix_operator K) :
  result (matrix_operator K) :=
  V <- apply op basis ;;
  P <- inner_array basis V ;;
  Ok (NumpyMatrixOperator P).

(** [project(op, RB, None)], of matrix [op.apply_adjoint(RB).to_numpy().conj()]. *)
Definition project_rhs (basis : VectorArray K) (op : matrix_operator K) :
  result (matrix_operator K) :=
  V <- apply_adjoint op basis ;;
  Ok (NumpyMatrixOperator (conjugate (to_numpy V))).

(** [project(op, None, RB)], of matrix [op.apply(RB).to_numpy().T]. *)
Definition project_output (basis : VectorArray K) (op : matrix_operator K) :
  result (matrix_operator K) :=
  V <- apply op basis ;;
  Ok (NumpyMatrixOperator (transpose (to_numpy V))).

Fixpoint project_all (basis : VectorArray K) (ops : seq (matrix_operator K)) :
  result (seq (matrix_operator K)) :=
  if ops is op :: ops' then
    P <- project_operator basis op ;;
    Ps <- project_all basis ops' ;;
    Ok (P :: Ps)
  else Ok [::].

(** [reductor.reduce()]: every operator of the linear combination is
    projected, the coefficients are kept, and the reduced model is built. *)
Definition reduce (r : reductor) : result (stationary_model K) :=
  ops <- project_all (RB r) (operators (operator (fom r))) ;;
  op_r <- LincombOperator ops (coefficients (operator (fom r))) ;;
  rhs_r <- project_rhs (RB r) (rhs (fom r)) ;;
  out_r <- match output_functional (fom r) with
           | Some out => P <- project_output (RB r) out ;; Ok (Some P)
           | None => Ok None
           end ;;
  StationaryModel op_r rhs_r out_r.

(** [reductor.reconstruct(u)], the array [RB[:u.dim].lincomb(u.to_numpy())]. *)
Definition reconstruct (r : reductor) (u : VectorArray K) :
  result (VectorArray K) :=
  lincomb (take_vectors (RB r) (dim u)) (to_numpy u).

End Reductors.

(** *** Gram-Schmidt orthonormalization *)

Section GramSchmidt.

Variable K : numClosedFieldType.
Variable n : nat.
Implicit Types (a q : 'rV[K]_n) (Q A : seq 'rV[K]_n).

(** The default [reiteration_threshold] of pyMOR, 9e-1. *)
Definition reiteration_threshold : K := 9%:R / 10%:R.

(** One sweep of modified Gram-Schmidt: the candidate is orthogonalized
    against the kept vectors one after the other, each projection computed on
    the already updated candidate.
    [[
      for j in range(i):
          if j in remove: continue
          p = A[j].inner(A[i], product)[0, 0]
          A[i].axpy(-p, A[j])
    ]] *)
Fixpoint orthogonalize Q a : 'rV[K]_n :=
  if Q is q :: Q' then orthogonalize Q' (a - inner q a *: q) else a.

(** The [while True] loop around the sweep: the vector is dropped ([None])
    when its norm falls to [rtol * initial_norm]; the sweep is repeated while
    the norm drops below [reiteration_threshold] times the previous one;
    otherwise the vector is normalized.  [fuel] bounds the number of sweeps. *)
Fixpoint reiterate (fuel : nat) (rtol : K) Q (initial_norm old_norm : K) a :
  result (option 'rV[K]_n) :=
  if fuel is fuel'.+1 then
    let a' := orthogonalize Q a in
    let nrm := norm a' in
    if nrm <= rtol * initial_norm then Ok None
    else if nrm < reiteration_threshold * old_norm
    then reiterate fuel' rtol Q initial_norm nrm a'
    else Ok (Some (nrm^-1 *: a'))
  else Raise LoopBudgetExhausted.

(** The main loop over the vectors [A[i]], [A[i+1]], ...; [Q] holds the
    vectors kept so far. *)
Fixpoint gram_schmidt_loop (fuel : nat) (atol rtol : K) (i : nat) Q A :
  result (seq 'rV[K]_n) :=
  if A is a :: A' then
    let initial_norm := norm a in
    if initial_norm <= atol then gram_schmidt_loop fuel atol rtol i.+1 Q A'
    else if i == 0%N
    then gram_schmidt_loop fuel atol rtol i.+1
           (rcons Q (initial_norm^-1 *: a)) A'
    else
      r <- reiterate fuel rtol Q initial_norm initial_norm a ;;
      match r with
      | None => gram_schmidt_loop fuel atol rtol i.+1 Q A'
      | Some q => gram_schmidt_loop fuel atol rtol i.+1 (rcons Q q) A'
      end
  else Ok Q.

End GramSchmidt.

Section GramSchmidtEntry.

Variable K : numClosedFieldType.

(** Modelled from the spec: the orthonormalization of section 4.7 (modified
    Gram-Schmidt over the vectors with a reorthogonalization pass), which the
    notebook obtains from [pymor.algorithms.gram_schmidt.gram_schmidt]; that
    library function is not among the sources.  The steps follow the library:
    a vector whose norm is at most [atol], or falls to [rtol] times its
    initial norm, is removed; the others are orthogonalized against the kept
    ones, reorthogonalized while the norm drops by more than the factor
    [reiteration_threshold], and normalized; the final check raises
    [AccuracyError] when an entry of [A.inner(A) - I] reaches [check_tol]. *)
Definition gram_schmidt (fuel : nat) (A : VectorArray K)
    (atol rtol check_tol : K) : result (VectorArray K) :=
  Q <- gram_schmidt_loop fuel atol rtol 0 [::] (vectors A) ;;
  (if (0 < size (error_matrix Q))%N && (check_tol <= max_abs (error_matrix Q))
   then Raise AccuracyError else Ok tt) ;;;
  Ok (of_vectors Q).

End GramSchmidtEntry.
End Pymor.

Import Pymor.

(** ** The transfer-function notebook *)

Module Transfer.
Section Notebook.

Variable K : numClosedFieldType.

(** [TF_exact(A, B, C, s)], the array [C @ inv(s*eye(n) - A) @ B].  The
    conversion of A is [to_matrix(A).toarray()] where those of B and C are
    [to_matrix(B)] and [to_matrix(C)]: for an operator A, [to_matrix] hands
    back its NumPy array, which has no method [toarray]. *)
Definition TF_exact (A B C : pyinput K) (s : K) : result (ndarray K) :=
  A <- match A with
       | FromArray A => Ok A
       | FromOperator A => toarray (to_matrix A)
       end ;;
  let B := to_array B in
  let C := to_array C in
  M <- subtract (scale s (eye K (nrows A))) A ;;
  Minv <- inv M ;;
  CM <- matmul C Minv ;;
  matmul CM B.

(** [MatrixModel(A, B, C)]: the stationary model of
    [a(v, w; s) = w*(sI - A)v], [l(w) = w*B], with output operator [C]. *)
Definition MatrixModel (A B C : pyinput K) : result (stationary_model K) :=
  let: (dim, A_op) :=
    match A with
    | FromArray A => (nrows A, NumpyMatrixOperator A)
    | FromOperator A => (nrows (to_matrix A), A)
    end in
  let B_op :=
    match B with
    | FromArray B => NumpyMatrixOperator B
    | FromOperator B => B
    end in
  let C_op :=
    match C with
    | FromArray C => NumpyMatrixOperator C
    | FromOperator C => C
    end in
  let I_op := NumpyMatrixOperator (eye K dim) in
  let s_param := ProjectionParameterFunctional K in
  a_op_1 <- LincombOperator [:: I_op; A_op] [:: s_param; Number (-1)] ;;
  let l_op_1 := B_op in
  StationaryModel a_op_1 l_op_1 (Some C_op).

(** An [LTIModel] as far as [TFROM] reads it: its matrices. *)
Record LTIModel : Type :=
  MkLTIModel { lti_A : pyinput K; lti_B : pyinput K; lti_C : pyinput K }.

(** [pymor.algorithms.pod.pod(A, modes, atol, rtol)], an argument of the
    development: it returns the POD modes and the singular values. *)
Variable pod :
  VectorArray K -> option nat -> K -> K -> result (VectorArray K * seq K).

(** The training set of [TFROM]: [snap] samples of the global generator in
    the interval [rng = (lo, hi)], or in the rectangle
    [rng = (lo, hi, ilo, ihi)] of the complex plane (real parts first, then
    imaginary parts).  With any other length no branch assigns
    [training_set] and the loop over it raises. *)
Definition training_set (rng : seq K) (snap : nat) (st : RandomState K) :
  result (seq K) * RandomState K :=
  match rng with
  | [:: lo; hi] =>
      let: (xs, st1) := uniform lo hi snap st in (Ok xs, st1)
  | [:: lo; hi; ilo; ihi] =>
      let: (xs, st1) := uniform lo hi snap st in
      let: (ys, st2) := uniform ilo ihi snap st1 in
      (Ok [seq p.1 + 'i * p.2 | p <- zip xs ys], st2)
  | _ => (Raise UnboundLocalError, st)
  end.

(** [for s in training_set: snapshot_matrix.append(model.solve(s))] *)
Fixpoint snapshots (model : stationary_model K) (acc : VectorArray K)
    (params : seq K) : result (VectorArray K) :=
  if params is s :: params' then
    U <- solve model s ;;
    acc' <- append acc U ;;
    snapshots model acc' params'
  else Ok acc.

(** [TFROM(model, rng, snap, rorder, atol, rtol)], the offline phase; the
    state of the global generator is threaded explicitly. *)
Definition TFROM (model : LTIModel) (rng : seq K) (snap : nat)
    (rorder : option nat) (atol rtol : K) (st : RandomState K) :
  result (stationary_model K) * RandomState K :=
  match MatrixModel (lti_A model) (lti_B model) (lti_C model) with
  | Raise e => (Raise e, st)
  | Ok model_TF =>
      let: (ts, st') := training_set rng snap st in
      (ts <- ts ;;
       snapshot_matrix <- snapshots model_TF (empty K (order model_TF)) ts ;;
       basis <- pod snapshot_matrix rorder atol rtol ;;
       pod_reductor <- StationaryRBReductor model_TF basis.1 ;;
       reduce pod_reductor,
       st')
  end.

(** [np.linalg.svd(X, full_matrices=True)], an argument of the development:
    it returns [U], the singular values and [Vt]. *)
Variable svd : ndarray K -> ndarray K * seq K * ndarray K.

(** The cell that builds the reduced basis with NumPy. *)
Definition pod_basis_numpy (snapshot_matrix : ndarray K) (modes_numpy : nat) :
  result (ndarray K) :=
  let: (U, D, Vt) := svd snapshot_matrix in
  if (modes_numpy > minn (nrows snapshot_matrix) (ncols snapshot_matrix))%N
  then Raise (ValueError "modes cannot exceed the rank of the snapshot matrix.")
  else Ok (take_columns U modes_numpy).

End Notebook.

(** *** The energy criterion *)

Section Energy.

(** The singular values that [np.linalg.svd] returns and the threshold are
    [float64] numbers: the binary64 numbers of the kernel, with the IEEE 754
    operations that NumPy applies to them, rounded to nearest. *)

(** [x**2] for one entry, which NumPy computes as the product [x * x]. *)
Definition square (x : float) : float := PrimFloat.mul x x.

(** [np.cumsum(x)]: [out[0] = x[0]] and [out[i] = out[i-1] + x[i]]. *)
Definition cumsum (x : seq float) : seq float :=
  if x is y :: x' then y :: scanl PrimFloat.add y x' else [::].

(** The loop [r[j] += a[i + j]], for j = 0..7, of NumPy's summation, over
    [blocks] groups of eight numbers; the numbers left over are returned
    with the eight accumulators. *)
Fixpoint accumulate (blocks : nat) (r a : seq float) :
  seq float * seq float :=
  if blocks is blocks'.+1 then
    accumulate blocks'
      [seq PrimFloat.add p.1 p.2 | p <- zip r (take 8 a)] (drop 8 a)
  else (r, a).

(** NumPy's summation of at most 128 numbers: fewer than eight are added one
    after the other; otherwise eight accumulators run over the groups of
    eight, are added pairwise, and the numbers left over are added last.
    (There are always eight accumulators: the last case of the match is
    never reached.) *)
Definition block_sum (a : seq float) : float :=
  if (size a < 8)%N then foldl PrimFloat.add 0%float a
  else
    let: (r, rest) := accumulate (size a %/ 8).-1 (take 8 a) (drop 8 a) in
    let res :=
      match r with
      | [:: r0; r1; r2; r3; r4; r5; r6; r7] =>
          (((r0 + r1) + (r2 + r3)) + ((r4 + r5) + (r6 + r7)))%float
      | _ => 0%float
      end in
    foldl PrimFloat.add res rest.

(** NumPy's pairwise summation: more than 128 numbers are split into two
    halves, the first of a length that is a multiple of eight, and the sums
    of the halves are added.  The length halves at each level, so that
    [size a] levels are more than enough. *)
Fixpoint pairwise_sum (levels : nat) (a : seq float) : float :=
  if (size a <= 128)%N then block_sum a
  else if levels is levels'.+1 then
    let n2 := (size a %/ 2 - (size a %/ 2) %% 8)%N in
    PrimFloat.add (pairwise_sum levels' (take n2 a))
                  (pairwise_sum levels' (drop n2 a))
  else block_sum a.

(** [np.sum(x)]: the reduction starts from the identity 0 and adds the
    pairwise sum of the array.  A start from [-0.0] gives the same sum
    whenever the array holds a number that is not [-0.0], as the array of
    squares of the cell below does. *)
Definition sum (x : seq float) : float :=
  PrimFloat.add 0%float (pairwise_sum (size x) x).

(** [np.argmax(x)] on booleans: the first index holding [True], and 0 when
    there is none; an empty array raises. *)
Definition argmax (x : seq bool) : result nat :=
  if x is [::]
  then Raise (ValueError "attempt to get argmax of an empty sequence")
  else Ok (if has id x then find id x else 0%N).

(** The cell that selects the number of modes [m] from the singular
    values [D] and the energy [threshold]: the quotients are IEEE quotients
    (an infinity or [nan] when the total is 0, without exception), and
    [q >= threshold] is never true of [nan]. *)
Definition energy_modes (D : seq float) (threshold : float) : result nat :=
  let squares := [seq square d | d <- D] in
  let total := sum squares in
  let cumulative_energy :=
    [seq PrimFloat.div e total | e <- cumsum squares] in
  i <- argmax [seq PrimFloat.leb threshold q | q <- cumulative_energy] ;;
  Ok (i + 1)%N.

End Energy.
End Transfer.

(** ** The projection-matrix notebook *)

Module Projection.

Section Construction.

Variable K : numClosedFieldType.

(** What the notebook functions return: NumPy arrays when [numpy is True],
    pyMOR vector arrays otherwise. *)
Inductive pyvalue : Type :=
| Array of ndarray K
| VArray of VectorArray K.

(** [MatrixModel(A, B, C)]: the stationary models of
    [w*(sI - A)v = w*B] and of [w*(sI - A)*v = w*C^T]. *)
Definition MatrixModel (A B C : pyinput K) :
  result (stationary_model K * stationary_model K) :=
  let: (dim, A_op) :=
    match A with
    | FromArray A => (nrows A, NumpyMatrixOperator A)
    | FromOperator A => (nrows (to_matrix A), A)
    end in
  let B_op :=
    match B with
    | FromArray B => NumpyMatrixOperator B
    | FromOperator B => B
    end in
  let C_op :=
    match C with
    | FromArray C => NumpyMatrixOperator (transpose C)
    | FromOperator C => H C
    end in
  let I_op := NumpyMatrixOperator (eye K dim) in
  let s_param := ProjectionParameterFunctional K in
  a_op_1 <- LincombOperator [:: I_op; A_op] [:: s_param; Number (-1)] ;;
  a_op_2 <- LincombOperator [:: I_op; H A_op]
              [:: ConjugateParameterFunctional s_param; Number (-1)] ;;
  let l_op_1 := B_op in
  let l_op_2 := C_op in
  model_V <- StationaryModel a_op_1 l_op_1 None ;;
  model_W <- StationaryModel a_op_2 l_op_2 None ;;
  Ok (model_V, model_W).

(** [np.linalg.svd(X, full_matrices=True)], an argument of the development. *)
Variable svd : ndarray K -> ndarray K * seq K * ndarray K.

(** The loop that fills both snapshot arrays, one parameter at a time. *)
Fixpoint solve_both (model_V model_W : stationary_model K)
    (acc_V acc_W : VectorArray K) (params : seq K) :
  result (VectorArray K * VectorArray K) :=
  if params is s :: params' then
    U_V <- solve model_V s ;;
    acc_V' <- append acc_V U_V ;;
    U_W <- solve model_W s ;;
    acc_W' <- append acc_W U_W ;;
    solve_both model_V model_W acc_V' acc_W' params'
  else Ok (acc_V, acc_W).

Definition MatrixReductor (model_V model_W : stationary_model K)
    (training_set : seq K) (reduced_order_V reduced_order_W : nat) :
  result (stationary_model K * reductor K * stationary_model K * reductor K) :=
  snaps <- solve_both model_V model_W
             (empty K (order model_V)) (empty K (order model_W)) training_set ;;
  let snapshot_matrix_V := transpose (to_numpy snaps.1) in
  let snapshot_matrix_W := transpose (to_numpy snaps.2) in
  let: (U_V, D_V, Vt_V) := svd snapshot_matrix_V in
  let: (U_W, D_W, Vt_W) := svd snapshot_matrix_W in
  if (reduced_order_V >
      minn (nrows snapshot_matrix_V) (ncols snapshot_matrix_V))%N
  then Raise (ValueError
         "'reduced_order_V' cannot exceed the rank of the snapshot matrix.")
  else if (reduced_order_W >
           minn (nrows snapshot_matrix_W) (ncols snapshot_matrix_W))%N
  then Raise (ValueError
         "'reduced_order_W' cannot exceed the rank of the snapshot matrix.")
  else
    let pod_basis_numpy_V := take_columns U_V reduced_order_V in
    let pod_basis_numpy_W := take_columns U_W reduced_order_W in
    pod_basis_V <- make_array (order model_V) (transpose pod_basis_numpy_V) ;;
    pod_basis_W <- make_array (order model_W) (transpose pod_basis_numpy_W) ;;
    pod_reductor_V <- StationaryRBReductor model_V pod_basis_V ;;
    pod_reductor_W <- StationaryRBReductor model_W pod_basis_W ;;
    pod_rom_V <- reduce pod_reductor_V ;;
    pod_rom_W <- reduce pod_reductor_W ;;
    Ok (pod_rom_V, pod_reductor_V, pod_rom_W, pod_reductor_W).

(** The first part of [ProjectionMatrices]: the reduced solutions at the
    points of [mu], reconstructed and transposed into [R_V] and [R_W]. *)
Definition reconstructed_solutions
    (pod_rom_V : stationary_model K) (pod_reductor_V : reductor K)
    (pod_rom_W : stationary_model K) (pod_reductor_W : reductor K)
    (mu : seq K) : result (ndarray K * ndarray K) :=
  let card_mu := size mu in
  sols <- solve_both pod_rom_V pod_rom_W
            (empty K (order pod_rom_V)) (empty K (order pod_rom_W)) mu ;;
  reduced_solution_reconstruct_V_T <- reconstruct pod_reductor_V sols.1 ;;
  reduced_solution_reconstruct_W_T <- reconstruct pod_reductor_W sols.2 ;;
  R_V <- make_array card_mu
           (transpose (to_numpy reduced_solution_reconstruct_V_T)) ;;
  R_W <- make_array card_mu
           (transpose (to_numpy reduced_solution_reconstruct_W_T)) ;;
  Ok (to_numpy R_V, to_numpy R_W).

Definition ProjectionMatrices
    (pod_rom_V : stationary_model K) (pod_reductor_V : reductor K)
    (pod_rom_W : stationary_model K) (pod_reductor_W : reductor K)
    (mu : seq K) (b c : seq K) (numpy : bool) : result (pyvalue * pyvalue) :=
  R <- reconstructed_solutions pod_rom_V pod_reductor_V
         pod_rom_W pod_reductor_W mu ;;
  let D_b := diag b in
  let D_c := diag c in
  V_numpy <- matmul R.1 D_b ;;
  W_numpy <- matmul R.2 D_c ;;
  if numpy then Ok (Array V_numpy, Array W_numpy)
  else
    V <- make_array (nrows V_numpy) (transpose V_numpy) ;;
    W <- make_array (nrows V_numpy) (transpose W_numpy) ;;
    Ok (VArray V, VArray W).

(** [exact(A, B, C, mu, b, c, numpy)], the closed-form construction.  A is
    converted by [to_matrix(A).toarray()], as in [TF_exact]. *)
Definition exact (A B C : pyinput K) (mu : seq K) (b c : seq K)
    (numpy : bool) : result (pyvalue * pyvalue) :=
  let dim := nrows (to_array A) in
  A <- match A with
       | FromArray A => Ok A
       | FromOperator A => toarray (to_matrix A)
       end ;;
  let B := to_array B in
  let C := to_array C in
  let mu_values := mu in
  let identity := eye K dim in
  let D_b := diag b in
  let D_c := diag c in
  V_columns <- comprehension
                 (fun s => M <- subtract (scale s identity) A ;;
                           Minv <- inv M ;;
                           matmul Minv B) mu_values ;;
  V_stack <- hstack V_columns ;;
  V_exact <- matmul V_stack D_b ;;
  W_columns <- comprehension
                 (fun s => M <- subtract (scale s identity) A ;;
                           Minv <- inv M ;;
                           matmul (conjugate (transpose Minv)) (transpose C))
                 mu_values ;;
  W_stack <- hstack W_columns ;;
  W_exact <- matmul W_stack D_c ;;
  if numpy then Ok (Array V_exact, Array W_exact)
  else
    V <- make_array (nrows V_exact) (transpose V_exact) ;;
    W <- make_array (nrows V_exact) (transpose W_exact) ;;
    Ok (VArray V, VArray W).

End Construction.

Section Orthogonalization.

Variable K : numClosedFieldType.

(** [pymor.algorithms.gram_schmidt.gram_schmidt(A, return_R=True, atol, rtol,
    check_tol)], an argument of the development: [Gram] discards the factor R,
    so only the orthonormalized array is kept. *)
Variable gram_schmidt :
  VectorArray K -> K (* atol *) -> K (* rtol *) -> K (* check_tol *) ->
  result (VectorArray K).

(** 1e-10 *)
Definition check_tol : K := (10%:R ^+ 10)^-1.

Definition Gram (V W : VectorArray K) (biort numpy : bool) :
  result (pyvalue K * pyvalue K) :=
  Q_V <- gram_schmidt V 0 0 check_tol ;;
  Q_W <- gram_schmidt W 0 0 check_tol ;;
  let V_orth := transpose (to_numpy Q_V) in
  let W_orth := transpose (to_numpy Q_W) in
  if biort then
    WtV <- matmul (transpose W_orth) V_orth ;;
    M <- inv WtV ;;
    V_orth <- matmul V_orth M ;;
    if numpy then Ok (Array V_orth, Array W_orth)
    else
      V' <- make_array (nrows V_orth) (transpose V_orth) ;;
      W' <- make_array (nrows V_orth) (transpose W_orth) ;;
      Ok (VArray V', VArray W')
  else
    if numpy then Ok (Array V_orth, Array W_orth)
    else Ok (VArray Q_V, VArray Q_W).

End Orthogonalization.

Section Comparison.

Variable K : numClosedFieldType.

(** [X if isinstance(X, np.ndarray) else X.to_numpy()] *)
Definition to_ndarray (X : pyvalue K) : ndarray K :=
  match X with
  | Array X => X
  | VArray A => to_numpy A
  end.

(** [error(V_exact, W_exact, V, W, norm)]: the function prints the two
    numbers [error_V] and [error_W] and returns nothing; the pair of the
    printed numbers stands for its effect. *)
Definition error (V_exact W_exact V W : pyvalue K) (norm : norm_order) :
  result (K * K) :=
  let V_exact := to_ndarray V_exact in
  let W_exact := to_ndarray W_exact in
  let V := to_ndarray V in
  let W := to_ndarray W in
  D_V <- subtract V_exact V ;;
  error_V <- linalg_norm D_V norm ;;
  D_W <- subtract W_exact W ;;
  error_W <- linalg_norm D_W norm ;;
  Ok (error_V, error_W).

End Comparison.
End Projection.

(** * Vocabulary of the properties *)

Section Vocabulary.

Variable K : numClosedFieldType.

Local Notation conj_mx := (map_mx (@Num.conj K)).

(** ** Values returned by the notebook functions *)

(** The columns held by a value returned by [Gram]. *)
Definition columns (x : Projection.pyvalue K) : ndarray K :=
  match x with
  | Projection.Array X => X
  | Projection.VArray A => transpose (to_numpy A)
  end.

(** The value [Gram] returns for the columns [X]: the array itself when
    [numpy is True], the vector array of its transpose otherwise. *)
Definition returned (numpy : bool) m k (X : 'M[K]_(m, k)) :
  Projection.pyvalue K :=
  if numpy then Projection.Array (Ndarray X)
  else Projection.VArray (NumpyVectorArray (Ndarray X^T)).

(** ** Orthonormality *)

(** The vectors of [L] are pairwise orthogonal and of norm one. *)
Definition orthonormal n (L : seq 'rV[K]_n) : Prop :=
  forall i j, (i < size L)%N -> (j < size L)%N ->
    inner (nth 0 L i) (nth 0 L j) = (i == j)%:R.

(** The rows of a matrix are orthonormal for pyMOR's inner product. *)
Definition orthonormal_rows (r n : nat) (Q : 'M[K]_(r, n)) : Prop :=
  forall i j : 'I_r, inner (row i Q) (row j Q) = (i == j)%:R.

(** ** Inputs and their shapes *)

(** The operator a notebook input stands for. *)
Definition to_operator (X : pyinput K) : matrix_operator K :=
  match X with
  | FromArray X => NumpyMatrixOperator X
  | FromOperator X => X
  end.

(** A matrix given to a notebook function as an array or as an operator. *)
Definition as_input (is_array : bool) (X : ndarray K) : pyinput K :=
  if is_array then FromArray X else FromOperator (NumpyMatrixOperator X).

(** A is n x n and B is n x 1, for n the number of rows of A. *)
Definition state_input_consistent (A B : pyinput K) : bool :=
  let n := nrows (to_array A) in
  [&& ncols (to_array A) == n, nrows (to_array B) == n
    & ncols (to_array B) == 1%N].

(** A is n x n, B is n x 1 and C is 1 x n, for n the number of rows of A. *)
Definition shapes_consistent (A B C : pyinput K) : bool :=
  [&& state_input_consistent A B,
      ncols (to_array C) == nrows (to_array A)
    & nrows (to_array C) == 1%N].

(** The operator [s I - A] built by both notebooks. *)
Definition primal_operator (A : pyinput K) : lincomb_operator K :=
  Lincomb [:: NumpyMatrixOperator (eye K (nrows (to_array A))); to_operator A]
          [:: ProjectionParameterFunctional K; Number (-1)].

(** The operator [conj(s) I - A^H] of the second model. *)
Definition adjoint_operator (A : pyinput K) : lincomb_operator K :=
  Lincomb [:: NumpyMatrixOperator (eye K (nrows (to_array A)));
              H (to_operator A)]
          [:: ConjugateParameterFunctional (ProjectionParameterFunctional K);
              Number (-1)].

(** ** Matrices of a known shape *)

(** The matrix [s I - A] *)
Definition pencil n (A : 'M[K]_n) (s : K) : 'M[K]_n := s *: 1%:M - A.

(** The matrix whose rows are the row vectors [f s], for [s] in [mu]. *)
Definition rows_mx n (f : K -> 'rV[K]_n) (mu : seq K) : 'M[K]_(size mu, n) :=
  \matrix_(i, j) f (nth 0 mu i) 0 j.

(** The matrix whose columns are the column vectors [x s], for [s] in [mu]. *)
Definition cols_mx n (x : K -> 'cV[K]_n) (mu : seq K) : 'M[K]_(n, size mu) :=
  \matrix_(i, j) x (nth 0 mu j) i 0.

(** The closed forms: column [j] is the solution at [mu_j] scaled by the
    weight of index [j]. *)
Definition weighted_columns n (x : K -> 'cV[K]_n) (mu w : seq K) :
  'M[K]_(n, size mu) :=
  \matrix_(i, j) (x (nth 0 mu j) i 0 * nth 0 w j).

(** ** Reduced models *)

Section ProjectedModel.

Variables (n : nat) (R : 'M[K]_n).
Variables (A1 : 'M[K]_n) (B1 : 'M[K]_(n, 1)) (f1 f2 : functional K).
Variable out : option (matrix_operator K).

(** The reduced model built on the basis [R] from the model of operator
    [f1 I + f2 A1] and right-hand side [B1]. *)
Definition projected_model : stationary_model K :=
  Model (Lincomb [:: NumpyMatrixOperator (Ndarray (conj_mx R *m 1%:M *m R^T));
                     NumpyMatrixOperator (Ndarray (conj_mx R *m A1 *m R^T))]
                 [:: f1; f2])
        (NumpyMatrixOperator (Ndarray (conj_mx R *m B1))) out.

End ProjectedModel.

(** ** A system of order n *)

Section SystemOfOrderN.

Variables (n : nat) (A : 'M[K]_n) (B : 'M[K]_(n, 1)) (C : 'M[K]_(1, n)).
Variables (fa fb fc : bool).

Let iA := as_input fa (Ndarray A).
Let iB := as_input fb (Ndarray B).
Let iC := as_input fc (Ndarray C).

(** The transfer function [C (s I - A)^-1 B] as a 1 x 1 matrix. *)
Definition transfer_function (s : K) : 'M[K]_1 := C *m invmx (pencil A s) *m B.

(** The model [MatrixModel] builds in the transfer-function notebook. *)
Definition full_order_model : stationary_model K :=
  Model (primal_operator iA) (to_operator iB) (Some (to_operator iC)).

(** The right-hand side of the second model: [C.T] for an array, the matrix
    of [C.H] for an operator. *)
Definition adjoint_rhs : 'M[K]_(n, 1) := if fc then C^T else conj_mx C^T.

(** The two models [MatrixModel] builds in the projection-matrix notebook. *)
Definition primal_model : stationary_model K :=
  Model (Lincomb [:: NumpyMatrixOperator (Ndarray (1%:M : 'M[K]_n));
                     NumpyMatrixOperator (Ndarray A)]
                 [:: ProjectionParameterFunctional K; Number (-1)])
        (NumpyMatrixOperator (Ndarray B)) None.

Definition adjoint_model : stationary_model K :=
  Model (Lincomb [:: NumpyMatrixOperator (Ndarray (1%:M : 'M[K]_n));
                     NumpyMatrixOperator (Ndarray (conj_mx A^T))]
                 [:: ConjugateParameterFunctional
                       (ProjectionParameterFunctional K); Number (-1)])
        (NumpyMatrixOperator (Ndarray adjoint_rhs)) None.

(** The solutions [(s I - A)^-1 B] and [(conj(s) I - A^H)^-1 rhs]. *)
Definition primal_solution (s : K) : 'cV[K]_n := invmx (pencil A s) *m B.

Definition adjoint_solution (s : K) : 'cV[K]_n :=
  invmx (pencil (conj_mx A^T) s^*) *m adjoint_rhs.

(** The columns built by [exact]. *)
Definition exact_adjoint_solution (s : K) : 'cV[K]_n :=
  conj_mx (invmx (pencil A s))^T *m C^T.

Section Bases.

Variable R : 'M[K]_n.
Variables (U_V U_W : 'M[K]_n).

(** The reduced model of [TFROM] on the basis whose vectors are the rows
    of [R]. *)
Definition full_rank_rom : stationary_model K :=
  Model (Lincomb [:: NumpyMatrixOperator (Ndarray (conj_mx R *m 1%:M *m R^T));
                     NumpyMatrixOperator (Ndarray (conj_mx R *m A *m R^T))]
                 [:: ProjectionParameterFunctional K; Number (-1)])
        (NumpyMatrixOperator (Ndarray (conj_mx R *m B)))
        (Some (NumpyMatrixOperator (Ndarray (C *m R^T)))).

(** The reduced models and the reductors of [MatrixReductor] on the bases
    whose vectors are the columns of [U_V] and of [U_W]. *)
Definition rom_V : stationary_model K :=
  projected_model U_V^T A B (ProjectionParameterFunctional K) (Number (-1))
    None.

Definition rom_W : stationary_model K :=
  projected_model U_W^T (conj_mx A^T) adjoint_rhs
    (ConjugateParameterFunctional (ProjectionParameterFunctional K))
    (Number (-1)) None.

Definition reductor_V : reductor K :=
  Reductor primal_model (NumpyVectorArray (Ndarray U_V^T)).

Definition reductor_W : reductor K :=
  Reductor adjoint_model (NumpyVectorArray (Ndarray U_W^T)).

End Bases.

End SystemOfOrderN.

(** ** Draws of the global generator *)

(** The two generator states deliver the same next [k] variates. *)
Definition same_draws (k : nat) (st1 st2 : RandomState K) : Prop :=
  forall i, (i < k)%N ->
    stream st1 (position st1 + i) = stream st2 (position st2 + i).

(** The number of variates [TFROM] consumes for a range [rng]. *)
Definition draws_needed (rng : seq K) (snap : nat) : nat :=
  if size rng == 2%N then snap
  else if size rng == 4%N then (snap + snap)%N
  else 0%N.

End Vocabulary.

(** ** The energy criterion in exact arithmetic *)

(** The rational number that a finite binary64 number denotes: its signed
    mantissa times a power of two (0 stands for the infinities and [nan],
    which the data below do not contain). *)
Definition float_value (x : float) : QArith_base.Q :=
  match Prim2SF x with
  | S754_finite s m e =>
      QArith_base.Qmult
        (QArith_base.inject_Z (if s then BinNums.Zneg m else BinNums.Zpos m))
        (QArith_base.Qpower
           (QArith_base.inject_Z (BinNums.Zpos (BinNums.xO BinNums.xH))) e)
  | _ => QArith_base.inject_Z BinNums.Z0
  end.

(** The sum of the squares of the first [k] singular values of [D]. *)
Definition exact_energy (D : seq QArith_base.Q) (k : nat) : QArith_base.Q :=
  foldr QArith_base.Qplus (QArith_base.inject_Z BinNums.Z0)
    [seq QArith_base.Qmult d d | d <- take k D].

(** The rule of the energy criterion: the smallest rank k, between 1 and the
    number of singular values, whose cumulated energy reaches [theta] times
    the total energy. *)
Definition energy_fraction_rank (D : seq QArith_base.Q) (theta : QArith_base.Q) :
  option nat :=
  let reached k :=
    QArith_base.Qle_bool
      (QArith_base.Qmult theta (exact_energy D (size D))) (exact_energy D k) in
  let ranks := iota 1 (size D) in
  if has reached ranks then Some (find reached ranks).+1 else None.

(** ** Systems with several outputs and their Galerkin projections *)

Section ReducedSystems.

Variable K : numClosedFieldType.

Local Notation conj_mx := (map_mx (@Num.conj K)).

(** The model [MatrixModel] builds in the transfer-function notebook for a
    system with p outputs. *)
Definition output_model n p (A : 'M[K]_n) (B : 'M[K]_(n, 1))
    (C : 'M[K]_(p, n)) : stationary_model K :=
  Model (Lincomb [:: NumpyMatrixOperator (Ndarray (1%:M : 'M[K]_n));
                     NumpyMatrixOperator (Ndarray A)]
                 [:: ProjectionParameterFunctional K; Number (-1)])
        (NumpyMatrixOperator (Ndarray B))
        (Some (NumpyMatrixOperator (Ndarray C))).

(** The Galerkin projection, on the basis whose k vectors are the rows of
    [R], of the model of operator [f1 I + f2 A1] and right-hand side [B1]. *)
Definition galerkin_model k n (R : 'M[K]_(k, n)) (A1 : 'M[K]_n)
    (B1 : 'M[K]_(n, 1)) (f1 f2 : functional K)
    (out : option (matrix_operator K)) : stationary_model K :=
  Model (Lincomb [:: NumpyMatrixOperator (Ndarray (conj_mx R *m 1%:M *m R^T));
                     NumpyMatrixOperator (Ndarray (conj_mx R *m A1 *m R^T))]
                 [:: f1; f2])
        (NumpyMatrixOperator (Ndarray (conj_mx R *m B1))) out.

(** The reduced model of a system with p outputs. *)
Definition galerkin_rom k n p (R : 'M[K]_(k, n)) (A : 'M[K]_n)
    (B : 'M[K]_(n, 1)) (C : 'M[K]_(p, n)) : stationary_model K :=
  galerkin_model R A B (ProjectionParameterFunctional K) (Number (-1))
    (Some (NumpyMatrixOperator (Ndarray (C *m R^T)))).

(** The matrix of the reduced operator at [s]: the projection of [s I - A]. *)
Definition reduced_pencil k n (R : 'M[K]_(k, n)) (A : 'M[K]_n) (s : K) :
  'M[K]_k :=
  conj_mx R *m pencil A s *m R^T.

(** The first [k] columns of a matrix. *)
Definition leading_columns m c k (X : 'M[K]_(m, c)) : 'M[K]_(m, k) :=
  \matrix_(i, j) item (Ndarray X) i j.

End ReducedSystems.

(** ** Data of the instances, over the algebraic numbers *)

(** 1 x 1 arrays to orthonormalize: V = (1) and W = (i). *)
Definition V_one : 'M[algC]_1 := 1%:M.
Definition W_i : 'M[algC]_1 := 'i%:M.

(** A system of order one: A = (0), B = (1), C = (1) or C = (i). *)
Definition A_zero : 'M[algC]_1 := 0.
Definition B_one : 'M[algC]_(1, 1) := 1%:M.
Definition C_one : 'M[algC]_(1, 1) := 1%:M.
Definition C_i : 'M[algC]_(1, 1) := 'i%:M.

(** A 2 x 1 output matrix. *)
Definition C_two_outputs : ndarray algC := Ndarray (0 : 'M[algC]_(2, 1)).

(** A generator whose variates are all 1/2: on the range (0, 2) every
    sample is the parameter 1. *)
Definition halves : RandomState algC := MkRandomState (fun _ => 2^-1) 0.

(** A generator that delivers 0 and then 1/2 for ever. *)
Definition fresh_generator : RandomState algC :=
  MkRandomState (fun i => if i == 0%N then 0 else 2^-1) 0.

(** A generator in another state, that delivers 0 and then 1 for ever. *)
Definition other_generator : RandomState algC :=
  MkRandomState (fun i => if i == 3%N then 0 else 1) 3.

(** A POD that returns the canonical basis, and an SVD whose left factor is
    the identity: both are orthonormal, and enough for a system of order
    one. *)
Definition pod_id (A : VectorArray algC) (modes : option nat)
    (atol rtol : algC) : result (VectorArray algC * seq algC) :=
  Ok (NumpyVectorArray (Ndarray (1%:M : 'M[algC]_1)), [:: 1]).

Definition svd_id (X : ndarray algC) :
  ndarray algC * seq algC * ndarray algC :=
  (Ndarray (1%:M : 'M[algC]_1), [:: 1], Ndarray (1%:M : 'M[algC]_1)).

(** A reduced model whose operator s (1) - (1) is singular at s = 1. *)
Definition singular_rom : stationary_model algC :=
  Model (Lincomb [:: NumpyMatrixOperator (Ndarray (1%:M : 'M[algC]_1));
                     NumpyMatrixOperator (Ndarray (1%:M : 'M[algC]_1))]
                 [:: ProjectionParameterFunctional algC; Number (-1)])
        (NumpyMatrixOperator (Ndarray (1%:M : 'M[algC]_1))) None.

Definition singular_reductor : reductor algC :=
  Reductor singular_rom (NumpyVectorArray (Ndarray (1%:M : 'M[algC]_1))).

(** Eight singular values in decreasing order, as binary64 numbers, and the
    energy fractions 1.0 and 0.99. *)
Definition D_rounding : seq float :=
  [:: 0.9; 0.8; 0.5; 0.4; 0.3; 0.2; 0.2; 0.1]%float.
Definition theta_all : float := 1%float.
Definition theta_99 : float := 0.99%float.

(** ** Further data of the instances *)

(** A 2 x 3 array in the place of the state matrix, and a 2 x 1 array in the
    place of the input matrix of a system of order one. *)
Definition A_2x3 : 'M[algC]_(2, 3) := 0.
Definition B_two_rows : ndarray algC := Ndarray (0 : 'M[algC]_(2, 1)).

(** An array without vectors, of dimension one. *)
Definition W_none : 'M[algC]_(1, 0) := 0.

(** * Properties *)

(** ** Arrays of a known shape *)

Section ArrayLemmas.

Variable K : numClosedFieldType.

Lemma item_Ndarray m k (X : 'M[K]_(m, k)) (i : 'I_m) (j : 'I_k) :
  item (Ndarray X) i j = X i j.
Proof.
rewrite /item /=.
case: insubP => [i' _ /val_inj ->|]; last by rewrite ltn_ord.
by case: insubP => [j' _ /val_inj ->|]; last by rewrite ltn_ord.
Qed.

Lemma as_mxK m k (X : 'M[K]_(m, k)) : as_mx m k (Ndarray X) = X.
Proof. by apply/matrixP => i j; rewrite mxE item_Ndarray. Qed.

Lemma matmulE m k p (X : 'M[K]_(m, k)) (Y : 'M[K]_(k, p)) :
  matmul (Ndarray X) (Ndarray Y) = Ok (Ndarray (X *m Y)).
Proof. by rewrite /matmul /= eqxx as_mxK. Qed.

Lemma matmul_mismatch (X Y : ndarray K) :
  ncols X != nrows Y ->
  matmul X Y = Raise (ValueError
    "matmul: Input operand 1 has a mismatch in its core dimension 0").
Proof. by rewrite /matmul => /negbTE ->. Qed.

Lemma invE n (X : 'M[K]_n) :
  X \in unitmx -> inv (Ndarray X) = Ok (Ndarray (invmx X)).
Proof. by move=> uX; rewrite /inv /= eqxx as_mxK uX. Qed.

Lemma inv_singular n (X : 'M[K]_n) :
  X \notin unitmx -> inv (Ndarray X) = Raise (LinAlgError "Singular matrix").
Proof. by move=> /negbTE uX; rewrite /inv /= eqxx as_mxK uX. Qed.

Lemma transposeE m k (X : 'M[K]_(m, k)) :
  transpose (Ndarray X) = Ndarray X^T.
Proof. by []. Qed.

End ArrayLemmas.

(** ** Biorthogonal normalization *)

Section GramProperties.

Variable K : numClosedFieldType.
Variable gram_schmidt : VectorArray K -> K -> K -> K -> result (VectorArray K).

Local Notation Gram := (Projection.Gram gram_schmidt).
Local Notation tol := (Projection.check_tol K).
Local Notation Array := (@Projection.Array K).
Local Notation VArray := (@Projection.VArray K).

Lemma transposeK (X : ndarray K) : transpose (transpose X) = X.
Proof. by case: X => m k X; rewrite /transpose /= trmxK. Qed.

(** When Wo^T Vo is singular the inversion raises and nothing is returned. *)
Lemma Gram_singular_pairing (V W : VectorArray K) (n r : nat)
    (Vo Wo : 'M[K]_(n, r)) (numpy : bool) :
  gram_schmidt V 0 0 tol = Ok (NumpyVectorArray (Ndarray Vo^T)) ->
  gram_schmidt W 0 0 tol = Ok (NumpyVectorArray (Ndarray Wo^T)) ->
  Wo^T *m Vo \notin unitmx ->
  Gram V W true numpy = Raise (LinAlgError "Singular matrix").
Proof.
move=> HV HW sing.
rewrite /Projection.Gram HV HW /= !transposeE !trmxK.
by rewrite matmulE /= inv_singular.
Qed.

End GramProperties.

(** ** Gram-Schmidt on orthonormal input *)

Section GramSchmidtProperties.

Variable K : numClosedFieldType.

Section Loop.

Variable n : nat.
Implicit Types (a q : 'rV[K]_n) (P R L : seq 'rV[K]_n).

Lemma orthogonalize_orthogonal P a :
  {in P, forall q, inner q a = 0} -> orthogonalize P a = a.
Proof.
elim: P a => [|q P IH] a orth //=.
rewrite orth ?mem_head // scale0r subr0.
by apply: IH => q' q'P; rewrite orth // in_cons q'P orbT.
Qed.

Lemma size_cat_cons_gt P a R k :
  (k <= size P)%N -> (k < size (P ++ a :: R))%N.
Proof.
by move=> kP; rewrite size_cat /= addnS ltnS (leq_trans kP) // leq_addr.
Qed.

Lemma orthonormal_norm P a R : orthonormal (P ++ a :: R) -> norm a = 1.
Proof.
move=> /(_ (size P) (size P)).
rewrite size_cat_cons_gt // nth_cat ltnn subnn /= eqxx.
by move=> /(_ isT isT) aa; rewrite /norm aa sqrtC1.
Qed.

Lemma orthonormal_orthogonal P a R :
  orthonormal (P ++ a :: R) -> {in P, forall q, inner q a = 0}.
Proof.
move=> orth q /(nthP 0) [k kP <-].
have := orth k (size P).
rewrite !size_cat_cons_gt // 1?ltnW //.
rewrite !nth_cat kP ltnn subnn /= (ltn_eqF kP).
by apply.
Qed.

Lemma threshold_lt1 : (reiteration_threshold K) < 1.
Proof.
by rewrite /reiteration_threshold ltr_pdivrMr ?ltr0n // mul1r ltr_nat.
Qed.

Lemma gram_schmidt_loop_orthonormal fuel atol rtol i P R :
  atol < 1 -> rtol < 1 -> orthonormal (P ++ R) ->
  gram_schmidt_loop fuel.+1 atol rtol i P R = Ok (P ++ R).
Proof.
move=> atol1 rtol1.
elim: R i P => [|a R IH] i P orth; first by rewrite cats0.
have a1 := orthonormal_norm orth.
have aP := orthonormal_orthogonal orth.
rewrite [LHS]/= a1 (lt_geF atol1) invr1 scale1r.
rewrite orthogonalize_orthogonal // a1 !mulr1 (lt_geF rtol1).
rewrite (lt_gtF threshold_lt1) invr1 scale1r /=.
by case: ifP => _; rewrite IH cat_rcons.
Qed.

Lemma max_abs0 (E : seq K) : {in E, forall x, x = 0} -> max_abs E = 0.
Proof.
elim: E => [|x E IH] E0 //.
have E0' : {in E, forall y, y = 0}.
  by move=> y yE; apply: E0; rewrite in_cons yE orbT.
move: (IH E0'); rewrite /max_abs /= => ->.
by rewrite (E0 x) ?mem_head // normr0 maxxx.
Qed.

Lemma error_matrix_orthonormal L :
  orthonormal L -> {in error_matrix L, forall x, x = 0}.
Proof.
move=> orth x /allpairsP [[i j] /= [iL jL ->]].
move: iL jL; rewrite !mem_iota !add0n /= => iL jL.
by rewrite orth // subrr.
Qed.

End Loop.

Lemma Ndarray_eq m m' k (e : m' = m) (X : 'M[K]_(m, k)) (Y : 'M[K]_(m', k)) :
  (forall i j, Y i j = X (cast_ord e i) j) -> Ndarray Y = Ndarray X.
Proof.
case: _ / e X => X XY; congr Ndarray.
by apply/matrixP => i j; rewrite XY cast_ord_id.
Qed.

Lemma size_vectors (A : VectorArray K) :
  size (vectors A) = nrows (to_numpy A).
Proof. by rewrite size_map size_enum_ord. Qed.

Lemma nth_vectors (A : VectorArray K) (i : 'I_(nrows (to_numpy A))) :
  nth 0 (vectors A) i = row i (data (to_numpy A)).
Proof.
by rewrite (nth_map i) ?size_enum_ord // nth_ord_enum.
Qed.

Lemma of_vectorsK (A : VectorArray K) : of_vectors (vectors A) = A.
Proof.
case: A => [[m k X]]; rewrite /of_vectors; congr NumpyVectorArray.
pose A := NumpyVectorArray (Ndarray X).
apply: (@Ndarray_eq _ _ _ (size_vectors A)) => i j.
rewrite mxE.
have -> : nth 0 (vectors A) i = nth 0 (vectors A) (cast_ord (size_vectors A) i).
  by [].
by rewrite nth_vectors mxE.
Qed.

Lemma orthonormal_vectors r n (Q : 'M[K]_(r, n)) :
  orthonormal_rows Q -> orthonormal (vectors (NumpyVectorArray (Ndarray Q))).
Proof.
move=> orth i j; rewrite size_vectors /= => ir jr.
have := @nth_vectors (NumpyVectorArray (Ndarray Q)).
by move=> /= nthE; rewrite (nthE (Ordinal ir)) (nthE (Ordinal jr)) orth.
Qed.

Lemma gram_schmidt_orthonormal_id fuel r n (Q : 'M[K]_(r, n))
    (atol rtol check_tol : K) :
  orthonormal_rows Q -> atol < 1 -> rtol < 1 -> 0 < check_tol ->
  gram_schmidt fuel.+1 (NumpyVectorArray (Ndarray Q)) atol rtol check_tol =
  Ok (NumpyVectorArray (Ndarray Q)).
Proof.
move=> /orthonormal_vectors orth atol1 rtol1 tol0.
rewrite /gram_schmidt gram_schmidt_loop_orthonormal //=.
rewrite (max_abs0 (error_matrix_orthonormal orth)) (lt_geF tol0) andbF /=.
by rewrite of_vectorsK.
Qed.

End GramSchmidtProperties.

(** ** Construction of the models *)

Section ModelConstruction.

Variable K : numClosedFieldType.
Implicit Types A B C : pyinput K.

Lemma Transfer_MatrixModelE A B C :
  Transfer.MatrixModel A B C =
  if state_input_consistent A B && (ncols (to_array C) == nrows (to_array A))
  then Ok (Model (primal_operator A) (to_operator B) (Some (to_operator C)))
  else Raise AssertionError.
Proof.
rewrite /Transfer.MatrixModel /state_input_consistent /primal_operator.
case: A => [a|[a]]; case: B => [b|[b]]; case: C => [c|[c]];
  rewrite /LincombOperator /StationaryModel /assert /source /range /= ?andbT;
  rewrite ?eqxx /=; do 4?[case: (_ == _) => //=].
Qed.

Lemma Projection_MatrixModelE A B C :
  Projection.MatrixModel A B C =
  if [&& state_input_consistent A B, ncols (to_array C) == nrows (to_array A)
       & nrows (to_array C) == 1%N]
  then Ok (Model (primal_operator A) (to_operator B) None,
           Model (adjoint_operator A)
             (match C with
              | FromArray c => NumpyMatrixOperator (transpose c)
              | FromOperator c => H c
              end) None)
  else Raise AssertionError.
Proof.
rewrite /Projection.MatrixModel /state_input_consistent /primal_operator.
rewrite /adjoint_operator.
case: A => [a|[a]]; case: B => [b|[b]]; case: C => [c|[c]];
  rewrite /LincombOperator /StationaryModel /assert /source /range /= ?andbT;
  rewrite ?eqxx /=; do 5?[case: (_ == _) => //=].
Qed.

End ModelConstruction.

(** ** Shape errors of the projection-matrix builder *)

Section ShapeErrors.

Variable K : numClosedFieldType.
Variable svd : ndarray K -> ndarray K * seq K * ndarray K.

Local Notation mismatch := (ValueError
  "matmul: Input operand 1 has a mismatch in its core dimension 0").

Lemma make_array_ok d (X : ndarray K) (A : VectorArray K) :
  make_array d X = Ok A -> A = NumpyVectorArray X /\ ncols X = d.
Proof.
by rewrite /make_array /assert; case: eqP => //= <- [<-].
Qed.

Lemma reconstructed_solutions_shape rom_V red_V rom_W red_W mu
    (R_V R_W : ndarray K) :
  Projection.reconstructed_solutions rom_V red_V rom_W red_W mu
    = Ok (R_V, R_W) ->
  ncols R_V = size mu /\ ncols R_W = size mu.
Proof.
rewrite /Projection.reconstructed_solutions.
case: (Projection.solve_both _ _ _ _ _) => [sols|e] //=.
case: (reconstruct red_V _) => [rec_V|e] //=.
case: (reconstruct red_W _) => [rec_W|e] //=.
case EV: (make_array _ _) => [A_V|e] //=.
case EW: (make_array _ _) => [A_W|e] //=.
have [-> HV] := make_array_ok EV.
have [-> HW] := make_array_ok EW.
by case=> <- <-.
Qed.

Lemma ProjectionMatrices_mismatch rom_V red_V rom_W red_W mu b c numpy
    (R_V R_W : ndarray K) :
  Projection.reconstructed_solutions rom_V red_V rom_W red_W mu
    = Ok (R_V, R_W) ->
  ~~ ((size b == size mu) && (size c == size mu)) ->
  Projection.ProjectionMatrices rom_V red_V rom_W red_W mu b c numpy
    = Raise mismatch.
Proof.
move=> ER; have [sV sW] := reconstructed_solutions_shape ER.
rewrite /Projection.ProjectionMatrices ER /=.
case Eb: (size b == size mu) => /=; last first.
  by move=> _; rewrite matmul_mismatch //= sV eq_sym Eb.
move=> Ec; rewrite {1}/matmul; case: ifP => _ //=.
by rewrite matmul_mismatch //= sW eq_sym.
Qed.

Lemma ProjectionMatrices_not_ok (rom_V : stationary_model K)
    (red_V : reductor K) (rom_W : stationary_model K) (red_W : reductor K)
    (mu b c : seq K) (numpy : bool) :
  ~~ ((size b == size mu) && (size c == size mu)) ->
  ~~ is_ok (Projection.ProjectionMatrices rom_V red_V rom_W red_W mu b c numpy).
Proof.
move=> neq.
case ER: (Projection.reconstructed_solutions rom_V red_V rom_W red_W mu)
  => [[R_V R_W]|e].
  by rewrite (ProjectionMatrices_mismatch _ ER).
by rewrite /Projection.ProjectionMatrices ER.
Qed.

Lemma pod_basis_numpy_exceeded (S : ndarray K) (k : nat) :
  (minn (nrows S) (ncols S) < k)%N ->
  Transfer.pod_basis_numpy svd S k =
  Raise (ValueError "modes cannot exceed the rank of the snapshot matrix.").
Proof.
by rewrite /Transfer.pod_basis_numpy; case: (svd S) => [[U D] Vt] ->.
Qed.

Lemma MatrixReductor_exceeded_V model_V model_W ts (k_V k_W : nat)
    (S_V S_W : VectorArray K) :
  Projection.solve_both model_V model_W
    (empty K (order model_V)) (empty K (order model_W)) ts = Ok (S_V, S_W) ->
  (minn (ncols (to_numpy S_V)) (nrows (to_numpy S_V)) < k_V)%N ->
  Projection.MatrixReductor svd model_V model_W ts k_V k_W =
  Raise (ValueError
    "'reduced_order_V' cannot exceed the rank of the snapshot matrix.").
Proof.
move=> ES big; rewrite /Projection.MatrixReductor ES /=.
by case: (svd _) => [[U_V D_V] Vt_V]; case: (svd _) => [[U_W D_W] Vt_W]; rewrite big.
Qed.

Lemma MatrixReductor_exceeded_W model_V model_W ts (k_V k_W : nat)
    (S_V S_W : VectorArray K) :
  Projection.solve_both model_V model_W
    (empty K (order model_V)) (empty K (order model_W)) ts = Ok (S_V, S_W) ->
  (k_V <= minn (ncols (to_numpy S_V)) (nrows (to_numpy S_V)))%N ->
  (minn (ncols (to_numpy S_W)) (nrows (to_numpy S_W)) < k_W)%N ->
  Projection.MatrixReductor svd model_V model_W ts k_V k_W =
  Raise (ValueError
    "'reduced_order_W' cannot exceed the rank of the snapshot matrix.").
Proof.
move=> ES small big; rewrite /Projection.MatrixReductor ES /=.
case: (svd _) => [[U_V D_V] Vt_V]; case: (svd _) => [[U_W D_W] Vt_W].
by rewrite ltnNge small /= big.
Qed.

End ShapeErrors.

(** ** Arrays, operators and models of a known shape *)

Section Typed.
Variable K : numClosedFieldType.

Local Notation conj_mx := (map_mx (@Num.conj K)).

Lemma conjugateE m k (X : 'M[K]_(m, k)) :
  conjugate (Ndarray X) = Ndarray (conj_mx X).
Proof. by []. Qed.

Lemma scaleE m k (s : K) (X : 'M[K]_(m, k)) :
  scale s (Ndarray X) = Ndarray (s *: X).
Proof. by []. Qed.

Lemma broadcast_item_same m k (X : 'M[K]_(m, k)) (i : 'I_m) (j : 'I_k) :
  broadcast_item (Ndarray X) i j = X i j.
Proof.
rewrite /broadcast_item /= -[RHS]item_Ndarray; congr item.
  by case: eqP => // m1; case: i => i /=; rewrite m1 ltnS leqn0 => /eqP.
by case: eqP => // k1; case: j => j /=; rewrite k1 ltnS leqn0 => /eqP.
Qed.

Lemma subtractE m k (X Y : 'M[K]_(m, k)) :
  subtract (Ndarray X) (Ndarray Y) = Ok (Ndarray (X - Y)).
Proof.
rewrite /subtract /broadcast_dim /= !eqxx; congr (Ok (Ndarray _)).
by apply/matrixP => i j; rewrite !mxE !broadcast_item_same.
Qed.

Lemma applyE m n p (M : 'M[K]_(m, n)) (U : 'M[K]_(p, n)) :
  apply (NumpyMatrixOperator (Ndarray M)) (NumpyVectorArray (Ndarray U)) =
  Ok (NumpyVectorArray (Ndarray (U *m M^T))).
Proof. by rewrite /apply /assert /dim /source /= eqxx /= transposeE matmulE. Qed.

Lemma apply_adjointE m n p (M : 'M[K]_(m, n)) (V : 'M[K]_(p, m)) :
  apply_adjoint (NumpyMatrixOperator (Ndarray M)) (NumpyVectorArray (Ndarray V)) =
  Ok (NumpyVectorArray (Ndarray (V *m conj_mx M))).
Proof.
by rewrite /apply_adjoint /assert /dim /range /= eqxx /= conjugateE matmulE.
Qed.

Lemma inner_arrayE n p q (U : 'M[K]_(p, n)) (V : 'M[K]_(q, n)) :
  inner_array (NumpyVectorArray (Ndarray U)) (NumpyVectorArray (Ndarray V)) =
  Ok (Ndarray (conj_mx U *m V^T)).
Proof.
by rewrite /inner_array /assert /dim /= eqxx /= conjugateE transposeE matmulE.
Qed.

Lemma apply_inverseE n p (M : 'M[K]_n) (V : 'M[K]_(p, n)) :
  apply_inverse (NumpyMatrixOperator (Ndarray M)) (NumpyVectorArray (Ndarray V)) =
  if M \in unitmx then Ok (NumpyVectorArray (Ndarray (invmx M *m V^T)^T))
  else Raise InversionError.
Proof.
rewrite /apply_inverse /assert /dim /range /source /= !eqxx /=.
by rewrite transposeE !as_mxK.
Qed.

Lemma assemble2E m k (M1 M2 : 'M[K]_(m, k)) (f1 f2 : functional K) (mu : K) :
  assemble (Lincomb [:: NumpyMatrixOperator (Ndarray M1);
                        NumpyMatrixOperator (Ndarray M2)] [:: f1; f2]) mu =
  NumpyMatrixOperator (Ndarray (evaluate f1 mu *: M1 + evaluate f2 mu *: M2)).
Proof.
rewrite /assemble /lincomb_range /lincomb_source /range /source /=.
by rewrite !big_cons big_nil /= addr0 !as_mxK.
Qed.

Lemma solve2E n (I1 A1 : 'M[K]_n) (B : 'M[K]_(n, 1)) (f1 f2 : functional K)
    (out : option (matrix_operator K)) (mu : K) :
  let M := evaluate f1 mu *: I1 + evaluate f2 mu *: A1 in
  solve (Model (Lincomb [:: NumpyMatrixOperator (Ndarray I1);
                            NumpyMatrixOperator (Ndarray A1)] [:: f1; f2])
               (NumpyMatrixOperator (Ndarray B)) out) mu =
  if M \in unitmx then Ok (NumpyVectorArray (Ndarray (invmx M *m B)^T))
  else Raise InversionError.
Proof.
by rewrite /solve /= assemble2E /as_range_array transposeE apply_inverseE trmxK.
Qed.

Lemma project_operatorE n k (R : 'M[K]_(k, n)) (M : 'M[K]_n) :
  project_operator (NumpyVectorArray (Ndarray R))
    (NumpyMatrixOperator (Ndarray M)) =
  Ok (NumpyMatrixOperator (Ndarray (conj_mx R *m M *m R^T))).
Proof.
rewrite /project_operator applyE /= inner_arrayE /=.
by rewrite trmx_mul trmxK mulmxA.
Qed.

Lemma conj_mxK m k (X : 'M[K]_(m, k)) : conj_mx (conj_mx X) = X.
Proof. by apply/matrixP => i j; rewrite !mxE conjCK. Qed.

Lemma project_rhsE n k p (R : 'M[K]_(k, n)) (B : 'M[K]_(n, p)) :
  project_rhs (NumpyVectorArray (Ndarray R)) (NumpyMatrixOperator (Ndarray B)) =
  Ok (NumpyMatrixOperator (Ndarray (conj_mx R *m B))).
Proof.
by rewrite /project_rhs apply_adjointE /= conjugateE map_mxM conj_mxK.
Qed.

Lemma project_outputE n k p (R : 'M[K]_(k, n)) (C : 'M[K]_(p, n)) :
  project_output (NumpyVectorArray (Ndarray R))
    (NumpyMatrixOperator (Ndarray C)) =
  Ok (NumpyMatrixOperator (Ndarray (C *m R^T))).
Proof.
by rewrite /project_output applyE /= transposeE trmx_mul trmxK.
Qed.

Lemma reduce2E n k (I1 A1 : 'M[K]_n) (B : 'M[K]_(n, 1)) (f1 f2 : functional K)
    (out : option (matrix_operator K)) (R : 'M[K]_(k, n)) :
  (if out is Some op then source op == n else true) ->
  reduce (Reductor
            (Model (Lincomb [:: NumpyMatrixOperator (Ndarray I1);
                                NumpyMatrixOperator (Ndarray A1)] [:: f1; f2])
                   (NumpyMatrixOperator (Ndarray B)) out)
            (NumpyVectorArray (Ndarray R))) =
  Ok (Model (Lincomb [:: NumpyMatrixOperator (Ndarray (conj_mx R *m I1 *m R^T));
                         NumpyMatrixOperator (Ndarray (conj_mx R *m A1 *m R^T))]
                     [:: f1; f2])
            (NumpyMatrixOperator (Ndarray (conj_mx R *m B)))
            (if out is Some op
             then Some (NumpyMatrixOperator
                          (Ndarray (as_mx (range op) n (matrix op) *m R^T)))
             else None)).
Proof.
move=> out_ok.
rewrite /reduce /= !project_operatorE /= project_rhsE /=.
rewrite /LincombOperator /StationaryModel /assert /source /range /= !eqxx /=.
case: out out_ok => [[[p q C]]|_] /=; last first.
  by rewrite /lincomb_range /range /= eqxx.
rewrite /source /= => /eqP qn; move: C; rewrite qn => C.
rewrite project_outputE /= /lincomb_range /lincomb_source /source /range /=.
by rewrite !eqxx /= as_mxK.
Qed.

Lemma trmx11 (X : 'M[K]_1) : X^T = X.
Proof. by apply/matrixP => i j; rewrite mxE !ord1. Qed.

Lemma to_operatorE (X : pyinput K) :
  to_operator X = NumpyMatrixOperator (to_array X).
Proof. by case: X => [a|[a]]. Qed.

Lemma pencilE n (A : 'M[K]_n) (s : K) : s *: 1%:M + (-1) *: A = pencil A s.
Proof. by rewrite scaleN1r. Qed.

Section UnitaryBasis.

Variables (n : nat) (R : 'M[K]_n).
Hypothesis R_orthonormal : conj_mx R *m R^T = 1%:M.

Lemma basis_mulC : R^T *m conj_mx R = 1%:M.
Proof. exact: mulmx1C. Qed.

Lemma projected_combination (I1 A1 : 'M[K]_n) (x y : K) :
  x *: (conj_mx R *m I1 *m R^T) + y *: (conj_mx R *m A1 *m R^T) =
  conj_mx R *m (x *: I1 + y *: A1) *m R^T.
Proof. by rewrite mulmxDr mulmxDl -!scalemxAr -!scalemxAl. Qed.

Lemma projected_unit (M : 'M[K]_n) :
  M \in unitmx ->
  (conj_mx R *m M *m R^T \in unitmx) /\
  invmx (conj_mx R *m M *m R^T) = conj_mx R *m invmx M *m R^T.
Proof.
move=> uM.
have inv_r : (conj_mx R *m M *m R^T) *m (conj_mx R *m invmx M *m R^T) = 1%:M.
  rewrite -!mulmxA [R^T *m _]mulmxA basis_mulC mul1mx.
  by rewrite [M *m _]mulmxA mulmxV // mul1mx.
have [uP _] := mulmx1_unit inv_r.
by split=> //; rewrite -[RHS](mulKmx uP) inv_r mulmx1.
Qed.

Lemma reduced_solution (M : 'M[K]_n) (B : 'M[K]_(n, 1)) :
  M \in unitmx ->
  invmx (conj_mx R *m M *m R^T) *m (conj_mx R *m B) = conj_mx R *m (invmx M *m B).
Proof.
move=> uM; have [_ ->] := projected_unit uM.
by rewrite -!mulmxA [R^T *m _]mulmxA basis_mulC mul1mx.
Qed.

Lemma reconstructed_solution (M : 'M[K]_n) (B : 'M[K]_(n, 1)) :
  M \in unitmx ->
  R^T *m (invmx (conj_mx R *m M *m R^T) *m (conj_mx R *m B)) = invmx M *m B.
Proof. by move=> uM; rewrite reduced_solution // mulmxA basis_mulC mul1mx. Qed.

End UnitaryBasis.

Lemma to_array_as_input f (X : ndarray K) : to_array (as_input f X) = X.
Proof. by case: f. Qed.

Lemma to_operator_as_input f (X : ndarray K) :
  to_operator (as_input f X) = NumpyMatrixOperator X.
Proof. by case: f. Qed.

Lemma orthonormal_rows_mul k n (R : 'M[K]_(k, n)) :
  conj_mx R *m R^T = 1%:M -> orthonormal_rows R.
Proof.
move=> /matrixP orth i j; rewrite /inner.
have := orth i j; rewrite !mxE => <-.
by apply: eq_bigr => l _; rewrite !mxE.
Qed.

Lemma reductor_check_tol_gt0 : 0 < reductor_check_tol K.
Proof. by rewrite /reductor_check_tol invr_gt0 exprn_gt0 // ltr0n. Qed.

Lemma check_orthonormality_ok k n (R : 'M[K]_(k, n)) :
  conj_mx R *m R^T = 1%:M ->
  check_orthonormality (NumpyVectorArray (Ndarray R)) = Ok tt.
Proof.
move=> /orthonormal_rows_mul /orthonormal_vectors orth.
rewrite /check_orthonormality (max_abs0 (error_matrix_orthonormal orth)).
by rewrite (lt_geF reductor_check_tol_gt0) andbF.
Qed.

Lemma StationaryRBReductorE k n (fom : stationary_model K) (R : 'M[K]_(k, n)) :
  order fom = n -> conj_mx R *m R^T = 1%:M ->
  StationaryRBReductor fom (NumpyVectorArray (Ndarray R)) =
  Ok (Reductor fom (NumpyVectorArray (Ndarray R))).
Proof.
move=> ord_fom orth.
by rewrite /StationaryRBReductor ord_fom /assert /dim /= eqxx /=
           check_orthonormality_ok.
Qed.

Section FullOrderModel.

Variables (n : nat) (A : 'M[K]_n) (B : 'M[K]_(n, 1)) (C : 'M[K]_(1, n)).
Variables (fa fb fc : bool).

Let iA := as_input fa (Ndarray A).
Let iB := as_input fb (Ndarray B).
Let iC := as_input fc (Ndarray C).

Local Notation transfer_function := (transfer_function A B C).
Local Notation full_order_model := (full_order_model A B C fa fb fc).

Lemma TF_exact_array (s : K) :
  pencil A s \in unitmx ->
  Transfer.TF_exact (FromArray (Ndarray A)) iB iC s =
  Ok (Ndarray (transfer_function s)).
Proof.
move=> uM; rewrite /Transfer.TF_exact !to_array_as_input /= scaleE subtractE /=.
by rewrite invE //= matmulE /= matmulE.
Qed.

Lemma full_order_modelE :
  full_order_model =
  Model (Lincomb [:: NumpyMatrixOperator (Ndarray (1%:M : 'M[K]_n));
                     NumpyMatrixOperator (Ndarray A)]
                 [:: ProjectionParameterFunctional K; Number (-1)])
        (NumpyMatrixOperator (Ndarray B))
        (Some (NumpyMatrixOperator (Ndarray C))).
Proof.
by rewrite /full_order_model /primal_operator !to_operator_as_input
           to_array_as_input.
Qed.

Lemma Transfer_MatrixModel_typed :
  Transfer.MatrixModel iA iB iC = Ok full_order_model.
Proof.
rewrite Transfer_MatrixModelE /state_input_consistent !to_array_as_input /=.
by rewrite !eqxx.
Qed.

Lemma full_order_solve (s : K) :
  solve full_order_model s =
  if pencil A s \in unitmx
  then Ok (NumpyVectorArray (Ndarray (invmx (pencil A s) *m B)^T))
  else Raise InversionError.
Proof. by rewrite full_order_modelE solve2E /= pencilE. Qed.

Lemma full_order_output (s : K) :
  pencil A s \in unitmx ->
  output full_order_model s = Ok (Ndarray (transfer_function s)).
Proof.
move=> uM; rewrite /output full_order_solve uM full_order_modelE /=.
rewrite applyE /=; congr (Ok (Ndarray _)).
by rewrite -trmx_mul trmx11 mulmxA.
Qed.

Section Reduced.

Variable R : 'M[K]_n.
Hypothesis R_orthonormal : conj_mx R *m R^T = 1%:M.

Local Notation full_rank_rom := (full_rank_rom A B C R).

Lemma full_rank_reduce :
  reduce (Reductor full_order_model (NumpyVectorArray (Ndarray R))) =
  Ok full_rank_rom.
Proof.
by rewrite full_order_modelE reduce2E /source /= ?eqxx //= as_mxK.
Qed.

Lemma full_rank_solve (s : K) :
  pencil A s \in unitmx ->
  solve full_rank_rom s =
  Ok (NumpyVectorArray (Ndarray (conj_mx R *m (invmx (pencil A s) *m B))^T)).
Proof.
move=> uM; rewrite /full_rank_rom solve2E /= projected_combination pencilE.
have [-> _] := projected_unit R_orthonormal uM.
by rewrite reduced_solution.
Qed.

Lemma full_rank_output (s : K) :
  pencil A s \in unitmx ->
  output full_rank_rom s = Ok (Ndarray (transfer_function s)).
Proof.
move=> uM; rewrite /output full_rank_solve //= applyE /=.
congr (Ok (Ndarray _)).
rewrite -trmx_mul trmx11 -!mulmxA [R^T *m _]mulmxA.
by rewrite (basis_mulC R_orthonormal) mul1mx mulmxA.
Qed.

Lemma order_full_order_model : order full_order_model = n.
Proof. by rewrite full_order_modelE. Qed.

Lemma TFROM_full_order pod (rng : seq K) (snap : nat) (rorder : option nat)
    (atol rtol : K) (st st' : RandomState K) (ts : seq K)
    (S : VectorArray K) (svals : seq K) :
  Transfer.training_set rng snap st = (Ok ts, st') ->
  Transfer.snapshots full_order_model
    (empty K (order full_order_model)) ts = Ok S ->
  pod S rorder atol rtol = Ok (NumpyVectorArray (Ndarray R), svals) ->
  Transfer.TFROM pod (Transfer.MkLTIModel iA iB iC) rng snap rorder atol rtol st
  = (Ok full_rank_rom, st').
Proof.
move=> Hts HS Hpod.
rewrite /Transfer.TFROM /= Transfer_MatrixModel_typed Hts /= HS /= Hpod /=.
rewrite (StationaryRBReductorE order_full_order_model R_orthonormal) /=.
by rewrite full_rank_reduce.
Qed.

End Reduced.

End FullOrderModel.

Lemma Ndarray_ext m k m' k' (em : m' = m) (ek : k' = k)
    (X : 'M[K]_(m, k)) (Y : 'M[K]_(m', k')) :
  (forall i j, Y i j = X (cast_ord em i) (cast_ord ek j)) ->
  Ndarray Y = Ndarray X.
Proof.
case: _ / em X; case: _ / ek => X XY; congr Ndarray.
by apply/matrixP => i j; rewrite XY !cast_ord_id.
Qed.

Lemma item_ord m k (X : 'M[K]_(m, k)) (i j : nat) (im : (i < m)%N)
    (jk : (j < k)%N) :
  item (Ndarray X) i j = X (Ordinal im) (Ordinal jk).
Proof. exact: (item_Ndarray X (Ordinal im) (Ordinal jk)). Qed.

Lemma rows_mx_tr n (x : K -> 'cV[K]_n) (mu : seq K) :
  (rows_mx (fun s => (x s)^T) mu)^T = cols_mx x mu.
Proof. by apply/matrixP => i j; rewrite !mxE. Qed.

Lemma rows_mx_mul n k (f : K -> 'rV[K]_n) (mu : seq K) (R : 'M[K]_(n, k)) :
  rows_mx f mu *m R = rows_mx (fun s => f s *m R) mu.
Proof.
apply/matrixP => i j; rewrite !mxE.
by apply: eq_bigr => l _; rewrite mxE.
Qed.

Lemma eq_rows_mx n (f g : K -> 'rV[K]_n) (mu : seq K) :
  {in mu, f =1 g} -> rows_mx f mu = rows_mx g mu.
Proof.
by move=> fg; apply/matrixP => i j; rewrite !mxE fg // mem_nth.
Qed.

Lemma of_vectors_map n (f : K -> 'rV[K]_n) (mu : seq K) :
  of_vectors [seq f s | s <- mu] = NumpyVectorArray (Ndarray (rows_mx f mu)).
Proof.
rewrite /of_vectors; congr NumpyVectorArray.
apply: (@Ndarray_ext _ _ _ _ (size_map f mu) (erefl n)) => i j.
by rewrite !mxE cast_ord_id (nth_map 0) //= -(size_map f).
Qed.

Lemma empty_of_vectors n : empty K n = of_vectors ([::] : seq 'rV[K]_n).
Proof.
rewrite /empty /of_vectors; congr (NumpyVectorArray (Ndarray _)).
by apply/matrixP => -[].
Qed.

Lemma append_of_vectors n (L : seq 'rV[K]_n) (v : 'rV[K]_n) :
  append (of_vectors L) (NumpyVectorArray (Ndarray v)) =
  Ok (of_vectors (rcons L v)).
Proof.
rewrite /append /assert /dim /= eqxx /= as_mxK.
congr (Ok (NumpyVectorArray _)); apply/esym.
have e : size (rcons L v) = (size L + 1)%N by rewrite size_rcons addn1.
apply: (@Ndarray_ext _ _ _ _ e (erefl n)) => i j.
rewrite !mxE cast_ord_id nth_rcons.
case: splitP => [l /= il|l /= il].
  by rewrite il ltn_ord mxE.
by rewrite il ord1 addn0 ltnn eqxx.
Qed.

Section Loops.

Variables (n_V n_W : nat) (model_V model_W : stationary_model K).
Variables (f_V : K -> 'rV[K]_n_V) (f_W : K -> 'rV[K]_n_W).

Lemma solve_both_of_vectors (mu : seq K) (L_V : seq 'rV[K]_n_V)
    (L_W : seq 'rV[K]_n_W) :
  {in mu, forall s, solve model_V s = Ok (NumpyVectorArray (Ndarray (f_V s)))} ->
  {in mu, forall s, solve model_W s = Ok (NumpyVectorArray (Ndarray (f_W s)))} ->
  Projection.solve_both model_V model_W (of_vectors L_V) (of_vectors L_W) mu =
  Ok (of_vectors (L_V ++ [seq f_V s | s <- mu]),
      of_vectors (L_W ++ [seq f_W s | s <- mu])).
Proof.
elim: mu L_V L_W => [|s mu IH] L_V L_W HV HW; first by rewrite /= !cats0.
rewrite /= HV ?mem_head //= append_of_vectors /= HW ?mem_head //=.
rewrite append_of_vectors /= IH ?cat_rcons //.
  by move=> t tmu; rewrite HV // in_cons tmu orbT.
by move=> t tmu; rewrite HW // in_cons tmu orbT.
Qed.

Lemma solve_both_rows (mu : seq K) :
  {in mu, forall s, solve model_V s = Ok (NumpyVectorArray (Ndarray (f_V s)))} ->
  {in mu, forall s, solve model_W s = Ok (NumpyVectorArray (Ndarray (f_W s)))} ->
  Projection.solve_both model_V model_W (empty K n_V) (empty K n_W) mu =
  Ok (NumpyVectorArray (Ndarray (rows_mx f_V mu)),
      NumpyVectorArray (Ndarray (rows_mx f_W mu))).
Proof.
move=> HV HW; rewrite !empty_of_vectors solve_both_of_vectors //=.
by rewrite !of_vectors_map.
Qed.

Lemma snapshots_of_vectors (mu : seq K) (L_V : seq 'rV[K]_n_V) :
  {in mu, forall s, solve model_V s = Ok (NumpyVectorArray (Ndarray (f_V s)))} ->
  Transfer.snapshots model_V (of_vectors L_V) mu =
  Ok (of_vectors (L_V ++ [seq f_V s | s <- mu])).
Proof.
elim: mu L_V => [|s mu IH] L_V HV; first by rewrite /= !cats0.
rewrite /= HV ?mem_head //= append_of_vectors /= IH ?cat_rcons //.
by move=> t tmu; rewrite HV // in_cons tmu orbT.
Qed.

Lemma snapshots_rows (mu : seq K) :
  {in mu, forall s, solve model_V s = Ok (NumpyVectorArray (Ndarray (f_V s)))} ->
  Transfer.snapshots model_V (empty K n_V) mu =
  Ok (NumpyVectorArray (Ndarray (rows_mx f_V mu))).
Proof.
by move=> HV; rewrite empty_of_vectors snapshots_of_vectors //= of_vectors_map.
Qed.

End Loops.

Lemma take_columns_all m k (X : 'M[K]_(m, k)) :
  take_columns (Ndarray X) k = Ndarray X.
Proof.
rewrite /take_columns /=.
apply: (@Ndarray_ext _ _ _ _ (erefl m) (minnn k)) => i j.
by rewrite mxE cast_ord_id -(item_Ndarray X i (cast_ord (minnn k) j)).
Qed.

Lemma take_vectors_all m k (X : 'M[K]_(m, k)) :
  take_vectors (NumpyVectorArray (Ndarray X)) m = NumpyVectorArray (Ndarray X).
Proof.
rewrite /take_vectors /dim /=; congr NumpyVectorArray.
apply: (@Ndarray_ext _ _ _ _ (minnn m) (erefl k)) => i j.
by rewrite mxE cast_ord_id -(item_Ndarray X (cast_ord (minnn m) i) j).
Qed.

Lemma reconstructE n k r (fom : stationary_model K) (R : 'M[K]_(k, n))
    (Z : 'M[K]_(r, k)) :
  reconstruct (Reductor fom (NumpyVectorArray (Ndarray R)))
    (NumpyVectorArray (Ndarray Z)) =
  Ok (NumpyVectorArray (Ndarray (Z *m R))).
Proof.
rewrite /reconstruct /dim /= take_vectors_all /lincomb /assert /= eqxx /=.
by rewrite matmulE.
Qed.

Lemma matmul_diag n r (X : 'M[K]_(n, r)) (b : seq K) :
  size b = r ->
  matmul (Ndarray X) (diag b) =
  Ok (Ndarray (\matrix_(i, j) (X i j * nth 0 b j))).
Proof.
move=> e; move: X; rewrite -e => X.
rewrite /diag matmulE; congr (Ok (Ndarray _)).
apply/matrixP => i j; rewrite !mxE (bigD1 j) //= mxE eqxx big1 ?addr0 //.
by move=> l lj; rewrite mxE val_eqE (negbTE lj) mulr0.
Qed.

Lemma comprehension_ok (A : eqType) (B : Type) (f : A -> result B)
    (g : A -> B) (s : seq A) :
  {in s, forall x, f x = Ok (g x)} ->
  comprehension f s = Ok [seq g x | x <- s].
Proof.
elim: s => [|x s IH] fg //=.
rewrite fg ?mem_head // IH // => y ys.
by rewrite fg // in_cons ys orbT.
Qed.

Lemma hstack_columns n (x : K -> 'cV[K]_n) (mu : seq K) :
  mu != [::] ->
  hstack [seq Ndarray (x s) | s <- mu] = Ok (Ndarray (cols_mx x mu)).
Proof.
elim: mu => [|s mu IH] // _.
case: mu IH => [_|t mu /(_ isT) IH].
  rewrite /=; congr (Ok (Ndarray _)).
  by apply/matrixP => i j; rewrite /cols_mx mxE !ord1.
rewrite [LHS]/= -/(hstack (Ndarray (x t) :: [seq Ndarray (x s) | s <- mu])).
move: IH; rewrite [map _ _]/= => -> /=; rewrite eqxx as_mxK.
congr (Ok (Ndarray _)).
apply/matrixP => i j; rewrite /cols_mx !mxE.
case: splitP => [l /= jl|l /= jl]; rewrite ?mxE jl ?ord1 //.
Qed.

Section ReducedSolve.

Variables (n : nat) (R : 'M[K]_n).
Hypothesis R_orthonormal : conj_mx R *m R^T = 1%:M.
Variables (A1 : 'M[K]_n) (B1 : 'M[K]_(n, 1)) (f1 f2 : functional K).
Variable out : option (matrix_operator K).

Local Notation projected_model := (projected_model R A1 B1 f1 f2 out).

Lemma projected_solve (s : K) :
  let M := evaluate f1 s *: 1%:M + evaluate f2 s *: A1 in
  M \in unitmx ->
  solve projected_model s =
  Ok (NumpyVectorArray (Ndarray (conj_mx R *m (invmx M *m B1))^T)).
Proof.
move=> M uM; rewrite /projected_model solve2E /= projected_combination.
have [-> _] := projected_unit R_orthonormal uM.
by rewrite reduced_solution.
Qed.

Lemma projected_reconstruct (fom : stationary_model K) (x : K -> 'cV[K]_n)
    (mu : seq K) :
  reconstruct (Reductor fom (NumpyVectorArray (Ndarray R)))
    (NumpyVectorArray
       (Ndarray (rows_mx (fun s => (conj_mx R *m x s)^T) mu))) =
  Ok (NumpyVectorArray (Ndarray (rows_mx (fun s => (x s)^T) mu))).
Proof.
rewrite reconstructE rows_mx_mul; congr (Ok (NumpyVectorArray (Ndarray _))).
apply: eq_rows_mx => s _.
rewrite -[X in _ *m X]trmxK -trmx_mul mulmxA.
by rewrite (basis_mulC R_orthonormal) mul1mx.
Qed.

End ReducedSolve.

Section ProjectionPipeline.

Variables (n : nat) (A : 'M[K]_n) (B : 'M[K]_(n, 1)) (C : 'M[K]_(1, n)).
Variables (fa fb fc : bool).

Let iA := as_input fa (Ndarray A).
Let iB := as_input fb (Ndarray B).
Let iC := as_input fc (Ndarray C).

Local Notation adjoint_rhs := (adjoint_rhs C fc).
Local Notation primal_model := (primal_model A B).
Local Notation adjoint_model := (adjoint_model A C fc).
Local Notation primal_solution := (primal_solution A B).
Local Notation adjoint_solution := (adjoint_solution A C fc).
Local Notation exact_adjoint_solution := (exact_adjoint_solution A C).

Lemma Projection_MatrixModel_typed :
  Projection.MatrixModel iA iB iC = Ok (primal_model, adjoint_model).
Proof.
rewrite Projection_MatrixModelE /state_input_consistent !to_array_as_input /=.
rewrite !eqxx /= /primal_operator /adjoint_operator !to_operator_as_input.
rewrite to_array_as_input /primal_model /adjoint_model /adjoint_rhs.
rewrite /iC /H /eye /conjugate /transpose /=.
by case: (fc).
Qed.

Lemma adjoint_pencil (s : K) :
  pencil (conj_mx A^T) s^* = conj_mx (pencil A s)^T.
Proof.
rewrite /pencil raddfB /= linearZ /= trmx1 map_mxB map_mxZ.
by rewrite map_scalar_mx /= conjC1.
Qed.

Lemma adjoint_pencil_unit (s : K) :
  (pencil (conj_mx A^T) s^* \in unitmx) = (pencil A s \in unitmx).
Proof. by rewrite adjoint_pencil map_unitmx unitmx_tr. Qed.

Lemma adjoint_pencil_inv (s : K) :
  invmx (pencil (conj_mx A^T) s^*) = conj_mx (invmx (pencil A s))^T.
Proof. by rewrite adjoint_pencil trmx_inv map_invmx. Qed.

Lemma primal_solve (s : K) :
  pencil A s \in unitmx ->
  solve primal_model s =
  Ok (NumpyVectorArray (Ndarray (primal_solution s)^T)).
Proof. by move=> uM; rewrite /primal_model solve2E /= pencilE uM. Qed.

Lemma adjoint_solve (s : K) :
  pencil A s \in unitmx ->
  solve adjoint_model s =
  Ok (NumpyVectorArray (Ndarray (adjoint_solution s)^T)).
Proof.
move=> uM; rewrite /adjoint_model solve2E /= pencilE.
by rewrite adjoint_pencil_unit uM.
Qed.

Lemma scale_columns (x : K -> 'cV[K]_n) (mu w : seq K) :
  size w = size mu ->
  matmul (Ndarray (cols_mx x mu)) (diag w) =
  Ok (Ndarray (weighted_columns x mu w)).
Proof.
move=> sz; rewrite matmul_diag //; congr (Ok (Ndarray _)).
by apply/matrixP => i j; rewrite /weighted_columns /cols_mx !mxE.
Qed.

Section FullOrderBases.

Variables (U_V U_W : 'M[K]_n).
Hypothesis U_V_orthonormal : conj_mx U_V^T *m U_V = 1%:M.
Hypothesis U_W_orthonormal : conj_mx U_W^T *m U_W = 1%:M.

Let R_V_orthonormal : conj_mx U_V^T *m (U_V^T)^T = 1%:M.
Proof. by rewrite trmxK. Qed.

Let R_W_orthonormal : conj_mx U_W^T *m (U_W^T)^T = 1%:M.
Proof. by rewrite trmxK. Qed.

Local Notation rom_V := (rom_V A B U_V).
Local Notation rom_W := (rom_W A C fc U_W).
Local Notation reductor_V := (reductor_V A B U_V).
Local Notation reductor_W := (reductor_W A C fc U_W).

Lemma MatrixReductor_full_order svd (ts : seq K) (S_V S_W : VectorArray K)
    (D_V D_W : seq K) (Vt_V Vt_W : ndarray K) :
  Projection.solve_both primal_model adjoint_model
    (empty K (order primal_model)) (empty K (order adjoint_model)) ts
    = Ok (S_V, S_W) ->
  svd (transpose (to_numpy S_V)) = (Ndarray U_V, D_V, Vt_V) ->
  svd (transpose (to_numpy S_W)) = (Ndarray U_W, D_W, Vt_W) ->
  (n <= minn (ncols (to_numpy S_V)) (nrows (to_numpy S_V)))%N ->
  (n <= minn (ncols (to_numpy S_W)) (nrows (to_numpy S_W)))%N ->
  Projection.MatrixReductor svd primal_model adjoint_model ts n n =
  Ok (rom_V, reductor_V, rom_W, reductor_W).
Proof.
move=> HS HV HW nV nW.
rewrite /Projection.MatrixReductor HS /= HV HW /= !ltnNge nV nW /=.
rewrite !take_columns_all !transposeE /make_array /assert /= !eqxx /=.
rewrite (StationaryRBReductorE (fom := primal_model) (erefl n)
           R_V_orthonormal) /=.
rewrite (StationaryRBReductorE (fom := adjoint_model) (erefl n)
           R_W_orthonormal) /=.
by rewrite /primal_model /adjoint_model !reduce2E.
Qed.

Lemma rom_V_solve (s : K) :
  pencil A s \in unitmx ->
  solve rom_V s =
  Ok (NumpyVectorArray (Ndarray (conj_mx U_V^T *m primal_solution s)^T)).
Proof.
move=> uM; rewrite /rom_V projected_solve //= pencilE //.
Qed.

Lemma rom_W_solve (s : K) :
  pencil A s \in unitmx ->
  solve rom_W s =
  Ok (NumpyVectorArray (Ndarray (conj_mx U_W^T *m adjoint_solution s)^T)).
Proof.
move=> uM; rewrite /rom_W projected_solve //= pencilE //.
by rewrite adjoint_pencil_unit.
Qed.

Lemma reconstructed_solutions_full_order (mu : seq K) :
  {in mu, forall s, pencil A s \in unitmx} ->
  Projection.reconstructed_solutions rom_V reductor_V rom_W reductor_W mu =
  Ok (Ndarray (cols_mx primal_solution mu),
      Ndarray (cols_mx adjoint_solution mu)).
Proof.
move=> unit_mu; rewrite /Projection.reconstructed_solutions.
rewrite (solve_both_rows (n_V := n) (n_W := n)
           (f_V := fun s => (conj_mx U_V^T *m primal_solution s)^T)
           (f_W := fun s => (conj_mx U_W^T *m adjoint_solution s)^T)) /=.
- by move=> s smu; rewrite rom_V_solve ?unit_mu.
- by move=> s smu; rewrite rom_W_solve ?unit_mu.
rewrite /reductor_V /reductor_W.
rewrite (projected_reconstruct R_V_orthonormal) /=.
rewrite (projected_reconstruct R_W_orthonormal) /=.
by rewrite /make_array /assert /= !eqxx /= !transposeE !rows_mx_tr.
Qed.

Lemma ProjectionMatrices_full_order (mu b c : seq K) (numpy : bool) :
  {in mu, forall s, pencil A s \in unitmx} ->
  size b = size mu -> size c = size mu ->
  let V := weighted_columns primal_solution mu b in
  let W := weighted_columns adjoint_solution mu c in
  Projection.ProjectionMatrices rom_V reductor_V rom_W reductor_W mu b c numpy =
  Ok (if numpy
      then (Projection.Array (Ndarray V), Projection.Array (Ndarray W))
      else (Projection.VArray (NumpyVectorArray (Ndarray V^T)),
            Projection.VArray (NumpyVectorArray (Ndarray W^T)))).
Proof.
move=> unit_mu sb sc V W; rewrite /Projection.ProjectionMatrices.
rewrite reconstructed_solutions_full_order //= !scale_columns //=.
by case: numpy => //; rewrite /make_array /assert /= !eqxx.
Qed.

End FullOrderBases.

Lemma exact_adjoint_solutionE (s : K) :
  exact_adjoint_solution s = invmx (pencil (conj_mx A^T) s^*) *m C^T.
Proof. by rewrite /exact_adjoint_solution adjoint_pencil_inv. Qed.

Lemma exact_full_order (mu b c : seq K) (numpy : bool) :
  mu != [::] ->
  {in mu, forall s, pencil A s \in unitmx} ->
  size b = size mu -> size c = size mu ->
  let V := weighted_columns primal_solution mu b in
  let W := weighted_columns exact_adjoint_solution mu c in
  Projection.exact (FromArray (Ndarray A)) iB iC mu b c numpy =
  Ok (if numpy
      then (Projection.Array (Ndarray V), Projection.Array (Ndarray W))
      else (Projection.VArray (NumpyVectorArray (Ndarray V^T)),
            Projection.VArray (NumpyVectorArray (Ndarray W^T)))).
Proof.
move=> mu0 unit_mu sb sc V W.
rewrite /Projection.exact !to_array_as_input /=.
rewrite (comprehension_ok (g := fun s => Ndarray (primal_solution s))).
  move=> s smu; rewrite scaleE subtractE /= invE ?unit_mu //=.
  by rewrite matmulE.
rewrite /= hstack_columns //= scale_columns //=.
rewrite (comprehension_ok (g := fun s => Ndarray (exact_adjoint_solution s))).
  move=> s smu; rewrite scaleE subtractE /= invE ?unit_mu //=.
  by rewrite transposeE conjugateE transposeE matmulE.
rewrite /= hstack_columns //= scale_columns //=.
by case: numpy => //; rewrite /make_array /assert /= !eqxx.
Qed.

End ProjectionPipeline.

End Typed.

(** ** Draws of the global generator *)

Section Randomness.
Variable K : numClosedFieldType.
Variable pod :
  VectorArray K -> option nat -> K -> K -> result (VectorArray K * seq K).

Lemma uniform_same_draws (low high : K) (k : nat) (st1 st2 : RandomState K) :
  same_draws k st1 st2 -> (uniform low high k st1).1 = (uniform low high k st2).1.
Proof.
move=> same; rewrite /uniform /=; apply/eq_in_map => i.
by rewrite mem_iota add0n /= => ik; rewrite same.
Qed.

Lemma uniform_position (low high : K) (k : nat) (st : RandomState K) :
  position (uniform low high k st).2 = (position st + k)%N /\
  stream (uniform low high k st).2 = stream st.
Proof. by []. Qed.

Lemma training_set_same_draws (rng : seq K) (snap : nat)
    (st1 st2 : RandomState K) :
  same_draws (draws_needed rng snap) st1 st2 ->
  (Transfer.training_set rng snap st1).1 = (Transfer.training_set rng snap st2).1.
Proof.
rewrite /Transfer.training_set /draws_needed.
case: rng => [|lo [|hi [|ilo [|ihi [|x rng]]]]] //= same.
  by congr Ok; apply: (uniform_same_draws lo hi same).
congr (Ok (map _ (zip _ _))).
  by apply/eq_in_map => i; rewrite mem_iota add0n /= => ik; rewrite same // ltn_addr.
apply/eq_in_map => i; rewrite mem_iota add0n /= => ik.
by rewrite -!addnA same // ltn_add2l.
Qed.

Lemma training_set_position (rng : seq K) (snap : nat) (st : RandomState K) :
  position (Transfer.training_set rng snap st).2 =
  (position st + draws_needed rng snap)%N.
Proof.
rewrite /Transfer.training_set /draws_needed.
case: rng => [|lo [|hi [|ilo [|ihi [|x rng]]]]] //=; rewrite ?addn0 ?addnA //.
Qed.

Lemma TFROM_same_draws (model : Transfer.LTIModel K) (rng : seq K) (snap : nat)
    (rorder : option nat) (atol rtol : K) (st1 st2 : RandomState K) :
  same_draws (draws_needed rng snap) st1 st2 ->
  (Transfer.TFROM pod model rng snap rorder atol rtol st1).1 =
  (Transfer.TFROM pod model rng snap rorder atol rtol st2).1.
Proof.
move=> /(training_set_same_draws (rng := rng)) same.
rewrite /Transfer.TFROM.
case: (Transfer.MatrixModel _ _ _) => [model_TF|e] //.
move: same.
case: (Transfer.training_set rng snap st1) => [ts1 st1'].
by case: (Transfer.training_set rng snap st2) => [ts2 st2'] /= ->.
Qed.

End Randomness.

(** * The claims *)

Section Claims.

Variable K : numClosedFieldType.

Local Notation conj_mx := (map_mx (@Num.conj K)).

(** ** Orthogonalization *)

Section GramClaims.

Variable gram_schmidt : VectorArray K -> K -> K -> K -> result (VectorArray K).

Local Notation Gram := (Projection.Gram gram_schmidt).
Local Notation tol := (Projection.check_tol K).

Lemma Gram_biortE (V W : VectorArray K) (n r : nat) (Vo Wo : 'M[K]_(n, r))
    (numpy : bool) :
  gram_schmidt V 0 0 tol = Ok (NumpyVectorArray (Ndarray Vo^T)) ->
  gram_schmidt W 0 0 tol = Ok (NumpyVectorArray (Ndarray Wo^T)) ->
  Wo^T *m Vo \in unitmx ->
  Gram V W true numpy =
  Ok (returned numpy (Vo *m invmx (Wo^T *m Vo)), returned numpy Wo).
Proof.
move=> HV HW unit_WtV.
rewrite /Projection.Gram HV HW /= !transposeE !trmxK.
rewrite matmulE /= invE //= matmulE /=.
by case: numpy => //=; rewrite /make_array /assert /= !eqxx.
Qed.

(** C1: when Gram-Schmidt turns V and W, each on its own, into n x r arrays
    Vo and Wo and Wo^T Vo is invertible, [Gram] with [biort = True] returns
    V' = Vo (Wo^T Vo)^-1 and W' = Wo, and W'^T V' is the identity of order
    r; when Wo^T Vo is singular the inversion raises instead. *)
Theorem Gram_biorthonormal (V W : VectorArray K) (n r : nat)
    (Vo Wo : 'M[K]_(n, r)) (numpy : bool) :
  gram_schmidt V 0 0 tol = Ok (NumpyVectorArray (Ndarray Vo^T)) ->
  gram_schmidt W 0 0 tol = Ok (NumpyVectorArray (Ndarray Wo^T)) ->
  if Wo^T *m Vo \in unitmx then
    let V' := Vo *m invmx (Wo^T *m Vo) in
    [/\ Gram V W true numpy = Ok (returned numpy V', returned numpy Wo),
        matmul (transpose (Ndarray Wo)) (Ndarray V') = Ok (eye K r)
      & Wo^T *m V' = 1%:M]
  else Gram V W true numpy = Raise (LinAlgError "Singular matrix").
Proof.
move=> HV HW; case: ifP => [unit_WtV V'|/negbT sing]; last first.
  exact: Gram_singular_pairing HV HW sing.
have WtV' : Wo^T *m V' = 1%:M by rewrite /V' mulmxA mulmxV.
split=> //; first exact: Gram_biortE.
by rewrite transposeE matmulE WtV'.
Qed.

End GramClaims.

(** C9: pyMOR's inner product makes the rows of Q (the vectors of the array)
    orthonormal; then the orthonormalization returns Q itself, for the
    tolerances [Gram] passes and for any [atol], [rtol] below 1 and positive
    [check_tol], whatever the loop budget; and [Gram] without
    biorthogonalization returns the columns Q^T unchanged. *)
Theorem gram_schmidt_idempotent (fuel r n : nat) (Q : 'M[K]_(r, n)) :
  orthonormal_rows Q ->
  let A := NumpyVectorArray (Ndarray Q) in
  [/\ forall atol rtol check_tol : K,
        atol < 1 -> rtol < 1 -> 0 < check_tol ->
        gram_schmidt fuel.+1 A atol rtol check_tol = Ok A,
      gram_schmidt fuel.+1 A 0 0 (Projection.check_tol K) = Ok A
    & Projection.Gram (gram_schmidt fuel.+1) A A false true =
      Ok (Projection.Array (Ndarray Q^T), Projection.Array (Ndarray Q^T))].
Proof.
move=> orth A.
have tol0 : 0 < Projection.check_tol K.
  by rewrite /Projection.check_tol invr_gt0 exprn_gt0 // ltr0n.
have fixed : gram_schmidt fuel.+1 A 0 0 (Projection.check_tol K) = Ok A.
  exact: gram_schmidt_orthonormal_id.
split=> //; first by move=> *; apply: gram_schmidt_orthonormal_id.
by rewrite /Projection.Gram fixed.
Qed.

(** C10: whenever [Gram] with [biort = True] returns a pair (V', W'), the
    call with [biort = False] on the same inputs returns a pair (Vo, W') with
    the same second component, and V' is Vo multiplied on the right by the
    inverse of W'^T Vo. *)
Theorem Gram_biort_keeps_W
    (gram_schmidt : VectorArray K -> K -> K -> K -> result (VectorArray K))
    (V W : VectorArray K) (numpy : bool) (V' W' : Projection.pyvalue K) :
  Projection.Gram gram_schmidt V W true numpy = Ok (V', W') ->
  exists Vo : Projection.pyvalue K,
    Projection.Gram gram_schmidt V W false numpy = Ok (Vo, W') /\
    (WtV <- matmul (transpose (columns W')) (columns Vo) ;;
     M <- inv WtV ;;
     matmul (columns Vo) M) = Ok (columns V').
Proof.
rewrite /Projection.Gram.
case: (gram_schmidt V 0 0 _) => [Q_V|e] //=.
case: (gram_schmidt W 0 0 _) => [Q_W|e] //=.
case EWtV: (matmul _ _) => [WtV|e] //=.
case EM: (inv WtV) => [M|e] //=.
case EV: (matmul _ M) => [Vb|e] //=.
case: numpy => /=.
- case=> <- <-.
  exists (Projection.Array (transpose (to_numpy Q_V))); split=> //=.
  by rewrite EWtV /= EM.
- rewrite /make_array /= eqxx /=.
  case: (ncols (to_numpy Q_W) == nrows Vb) => //=.
  case=> <- <-.
  exists (Projection.VArray Q_V); split.
    by rewrite transposeK; case: (Q_W).
  by rewrite /= !transposeK -[to_numpy Q_W]transposeK EWtV /= EM /= EV.
Qed.

(** ** Error handling *)

(** C4: when the requested rank k exceeds min(n, count) for the n x count
    snapshot matrix S, the NumPy cell that extracts the basis raises
    [ValueError], and so does [MatrixReductor] when S is its snapshot matrix
    for V, or for W (the order requested for V being admissible): no reduced
    basis is returned. *)
Theorem rank_exceeded_raises
    (svd : ndarray K -> ndarray K * seq K * ndarray K)
    (S : ndarray K) (k : nat) :
  (minn (nrows S) (ncols S) < k)%N ->
  [/\ Transfer.pod_basis_numpy svd S k =
        Raise (ValueError "modes cannot exceed the rank of the snapshot matrix."),
      forall (model_V model_W : stationary_model K) (ts : seq K)
             (S_V S_W : VectorArray K) (k_W : nat),
        Projection.solve_both model_V model_W (empty K (order model_V))
          (empty K (order model_W)) ts = Ok (S_V, S_W) ->
        transpose (to_numpy S_V) = S ->
        Projection.MatrixReductor svd model_V model_W ts k k_W =
        Raise (ValueError
          "'reduced_order_V' cannot exceed the rank of the snapshot matrix.")
    & forall (model_V model_W : stationary_model K) (ts : seq K)
             (S_V S_W : VectorArray K) (k_V : nat),
        Projection.solve_both model_V model_W (empty K (order model_V))
          (empty K (order model_W)) ts = Ok (S_V, S_W) ->
        transpose (to_numpy S_W) = S ->
        (k_V <= minn (ncols (to_numpy S_V)) (nrows (to_numpy S_V)))%N ->
        Projection.MatrixReductor svd model_V model_W ts k_V k =
        Raise (ValueError
          "'reduced_order_W' cannot exceed the rank of the snapshot matrix.")].
Proof.
move=> big; split.
- exact: pod_basis_numpy_exceeded.
- move=> model_V model_W ts S_V S_W k_W HS SE.
  apply: (MatrixReductor_exceeded_V _ _ HS).
  by move: big; rewrite -SE.
- move=> model_V model_W ts S_V S_W k_V HS SE small.
  apply: (MatrixReductor_exceeded_W _ HS small).
  by move: big; rewrite -SE.
Qed.

(** C5: when the lengths of the points, of [b] and of [c] are not
    all equal, [ProjectionMatrices] returns no pair: it raises NumPy's
    shape-mismatch [ValueError] from the scaling by the weights when the
    reduced solutions have been computed and reconstructed, and otherwise
    the exception raised by that earlier step. *)
Theorem ProjectionMatrices_length_mismatch
    (pod_rom_V : stationary_model K) (pod_reductor_V : reductor K)
    (pod_rom_W : stationary_model K) (pod_reductor_W : reductor K)
    (mu b c : seq K) (numpy : bool) :
  ~~ ((size b == size mu) && (size c == size mu)) ->
  Projection.ProjectionMatrices pod_rom_V pod_reductor_V
    pod_rom_W pod_reductor_W mu b c numpy =
  match Projection.reconstructed_solutions pod_rom_V pod_reductor_V
          pod_rom_W pod_reductor_W mu with
  | Ok _ => Raise (ValueError
      "matmul: Input operand 1 has a mismatch in its core dimension 0")
  | Raise e => Raise e
  end.
Proof.
move=> neq.
case ER: (Projection.reconstructed_solutions _ _ _ _ _) => [[R_V R_W]|e].
  exact: ProjectionMatrices_mismatch ER neq.
by rewrite /Projection.ProjectionMatrices ER.
Qed.


(** C7: [TFROM] takes no seed and draws from the process-global
    generator; its training set and its reduced system are determined by its
    arguments and by the next variates of that generator ([snap] of them for
    a real range, twice as many for a complex one): two runs with the same
    arguments started in generator states that deliver the same such variates
    return the same training set and the same result, and each run advances
    the generator by that number of variates when the model is built. *)
Theorem TFROM_determined_by_draws
    (pod : VectorArray K -> option nat -> K -> K ->
           result (VectorArray K * seq K))
    (model : Transfer.LTIModel K) (rng : seq K) (snap : nat)
    (rorder : option nat) (atol rtol : K) (st1 st2 : RandomState K) :
  same_draws (draws_needed rng snap) st1 st2 ->
  [/\ (Transfer.training_set rng snap st1).1 =
      (Transfer.training_set rng snap st2).1,
      (Transfer.TFROM pod model rng snap rorder atol rtol st1).1 =
      (Transfer.TFROM pod model rng snap rorder atol rtol st2).1
    & is_ok (Transfer.MatrixModel (Transfer.lti_A model) (Transfer.lti_B model)
               (Transfer.lti_C model)) ->
      position (Transfer.TFROM pod model rng snap rorder atol rtol st1).2 =
      (position st1 + draws_needed rng snap)%N].
Proof.
move=> same; split.
- exact: training_set_same_draws.
- exact: TFROM_same_draws.
- rewrite /Transfer.TFROM.
  case: (Transfer.MatrixModel _ _ _) => [model_TF|e] //= _.
  rewrite -training_set_position.
  by case: (Transfer.training_set rng snap st1).
Qed.

End Claims.

(** * Instances over the algebraic numbers *)

Section ScalarMatrices.

Variable K : numClosedFieldType.

Lemma orthonormal_rows_1x1 (X : 'M[K]_1) :
  (X 0 0)^* * X 0 0 = 1 -> orthonormal_rows X.
Proof.
move=> X1 i j; rewrite !ord1 eqxx /inner big_ord1 !mxE.
by rewrite X1.
Qed.

Lemma orthonormal_columns_1 (n : nat) :
  map_mx Num.conj (1%:M : 'M[K]_n)^T *m 1%:M = 1%:M.
Proof. by rewrite trmx1 map_scalar_mx /= conjC1 mulmx1. Qed.

Lemma orthonormal_rows_id (n : nat) :
  map_mx Num.conj (1%:M : 'M[K]_n) *m (1%:M)^T = 1%:M.
Proof. by rewrite trmx1 map_scalar_mx /= conjC1 mulmx1. Qed.

Lemma pencil0 (n : nat) (s : K) : pencil (0 : 'M[K]_n) s = s%:M.
Proof. by rewrite /pencil subr0 scalemx1. Qed.

Lemma pencil0_unit (n : nat) (s : K) : s != 0 -> pencil (0 : 'M[K]_n) s \in unitmx.
Proof.
by move=> s0; rewrite pencil0 unitmxE det_scalar unitfE expf_neq0.
Qed.

Lemma zero_not_unit : (0 : 'M[K]_1) \in unitmx = false.
Proof. by rewrite unitmxE det0 unitr0. Qed.

End ScalarMatrices.

Section Instances.

Local Notation K := algC.
Local Notation M1 := 'M[algC]_1.

Let tol_gt0 : 0 < Projection.check_tol K.
Proof. by rewrite /Projection.check_tol invr_gt0 exprn_gt0 // ltr0n. Qed.

Lemma V_one_orthonormal : orthonormal_rows V_one^T.
Proof. by apply: orthonormal_rows_1x1; rewrite !mxE /= conjC1 mulr1. Qed.

Lemma W_i_orthonormal : orthonormal_rows W_i^T.
Proof.
apply: orthonormal_rows_1x1; rewrite !mxE /= mulr1n.
by rewrite conjCi mulNr -expr2 sqrCi opprK.
Qed.

Lemma pairing_unit : W_i^T *m V_one \in unitmx.
Proof.
rewrite /V_one mulmx1 unitmx_tr /W_i unitmxE det_scalar unitfE expr1.
exact: neq0Ci.
Qed.

Lemma gram_schmidt_fixes (Q : M1) :
  orthonormal_rows Q^T ->
  gram_schmidt 1 (NumpyVectorArray (Ndarray Q^T)) 0 0 (Projection.check_tol K) =
  Ok (NumpyVectorArray (Ndarray Q^T)).
Proof. by move=> orth; apply: gram_schmidt_orthonormal_id. Qed.

Lemma Gram_biorthonormal_witness :
  let V' := V_one *m invmx (W_i^T *m V_one) in
  [/\ Projection.Gram (gram_schmidt 1)
        (NumpyVectorArray (Ndarray V_one^T))
        (NumpyVectorArray (Ndarray W_i^T)) true true =
      Ok (returned true V', returned true W_i),
      matmul (transpose (Ndarray W_i)) (Ndarray V') = Ok (eye K 1)
    & W_i^T *m V' = 1%:M].
Proof.
have := Gram_biorthonormal true
          (gram_schmidt_fixes V_one_orthonormal)
          (gram_schmidt_fixes W_i_orthonormal).
by rewrite pairing_unit.
Defined.

Lemma gram_schmidt_idempotent_witness :
  let A := NumpyVectorArray (Ndarray W_i^T) in
  [/\ forall atol rtol check_tol : K,
        atol < 1 -> rtol < 1 -> 0 < check_tol ->
        gram_schmidt 1 A atol rtol check_tol = Ok A,
      gram_schmidt 1 A 0 0 (Projection.check_tol K) = Ok A
    & Projection.Gram (gram_schmidt 1) A A false true =
      Ok (Projection.Array (Ndarray (W_i^T)^T),
          Projection.Array (Ndarray (W_i^T)^T))].
Proof.
apply: gram_schmidt_idempotent.
exact: W_i_orthonormal.
Defined.

Lemma Gram_biort_keeps_W_witness :
  exists Vo : Projection.pyvalue K,
    Projection.Gram (gram_schmidt 1)
      (NumpyVectorArray (Ndarray V_one^T))
      (NumpyVectorArray (Ndarray W_i^T)) false true =
      Ok (Vo, returned true W_i) /\
    (WtV <- matmul (transpose (columns (returned true W_i))) (columns Vo) ;;
     M <- inv WtV ;;
     matmul (columns Vo) M) =
    Ok (columns (returned true (V_one *m invmx (W_i^T *m V_one)))).
Proof.
apply: Gram_biort_keeps_W.
apply: Gram_biortE.
- exact: gram_schmidt_fixes V_one_orthonormal.
- exact: gram_schmidt_fixes W_i_orthonormal.
- exact: pairing_unit.
Defined.

Lemma training_set_halves :
  Transfer.training_set [:: 0; 2] 1 halves =
  (Ok [:: 1], MkRandomState (fun _ => 2^-1) 1).
Proof.
rewrite /Transfer.training_set /uniform /= add0r subr0.
by rewrite divff // pnatr_eq0.
Qed.

Lemma A_zero_unit : (1 : K) *: 1%:M - A_zero \in unitmx.
Proof. by apply: pencil0_unit; rewrite oner_eq0. Qed.

Lemma A_zero_unit_in (mu : seq K) :
  mu = [:: 1] -> {in mu, forall s, s *: 1%:M - A_zero \in unitmx}.
Proof. by move=> -> s; rewrite inE => /eqP ->; apply: A_zero_unit. Qed.

Lemma snapshots_order_one (fa fb fc : bool) :
  let model_TF := full_order_model A_zero B_one C_one fa fb fc in
  Transfer.snapshots model_TF (empty K (order model_TF)) [:: 1] =
  Ok (NumpyVectorArray
        (Ndarray (rows_mx (fun s => (invmx (pencil A_zero s) *m B_one)^T) [:: 1]))).
Proof.
move=> model_TF; rewrite order_full_order_model.
apply: snapshots_rows => s; rewrite inE => /eqP ->.
by rewrite full_order_solve A_zero_unit.
Qed.

(** The run of [MatrixReductor] on the system of order one, at the training
    parameter 1, with C given as an operator. *)
Lemma solve_both_order_one (C : 'M[algC]_(1, 1)) (fc : bool) :
  let model_V := primal_model A_zero B_one in
  let model_W := adjoint_model A_zero C fc in
  Projection.solve_both model_V model_W
    (empty K (order model_V)) (empty K (order model_W)) [:: 1] =
  Ok (NumpyVectorArray
        (Ndarray (rows_mx (fun s => (primal_solution A_zero B_one s)^T) [:: 1])),
      NumpyVectorArray
        (Ndarray (rows_mx (fun s => (adjoint_solution A_zero C fc s)^T) [:: 1]))).
Proof.
move=> model_V model_W.
apply: (solve_both_rows (n_V := 1) (n_W := 1)) => s; rewrite inE => /eqP ->.
  by rewrite primal_solve // A_zero_unit.
by rewrite adjoint_solve // A_zero_unit.
Qed.


(** C3, at the failing input: A = (0), B = (1) and C = (i), with C given as
    a pyMOR operator, full-order bases, the single interpolation point 1 and
    weights 1.  [MatrixModel] takes [C.H] for the right-hand side of the
    second model, and the column of W that [ProjectionMatrices] returns is
    (-i); the closed form (conj(s) I - A^H)^-1 C^T c is (i), and (i) is the
    column that [exact] returns on the same system. *)
Theorem ProjectionMatrices_conjugates_operator_C :
  let iA := FromArray (Ndarray A_zero) in
  let iB := FromArray (Ndarray B_one) in
  let iC := FromOperator (NumpyMatrixOperator (Ndarray C_i)) in
  let closed_form : M1 :=
    1 *: (invmx (1^* *: 1%:M - map_mx Num.conj A_zero^T) *m C_i^T) in
  exists (model_V model_W pod_rom_V pod_rom_W : stationary_model K)
         (pod_reductor_V pod_reductor_W : reductor K) (V W V_exact W_exact : M1),
    [/\ Projection.MatrixModel iA iB iC = Ok (model_V, model_W),
        Projection.MatrixReductor svd_id model_V model_W [:: 1] 1 1 =
          Ok (pod_rom_V, pod_reductor_V, pod_rom_W, pod_reductor_W),
        Projection.ProjectionMatrices pod_rom_V pod_reductor_V
          pod_rom_W pod_reductor_W [:: 1] [:: 1] [:: 1] true =
          Ok (Projection.Array (Ndarray V), Projection.Array (Ndarray W)),
        Projection.exact iA iB iC [:: 1] [:: 1] [:: 1] true =
          Ok (Projection.Array (Ndarray V_exact),
              Projection.Array (Ndarray W_exact))
      & [/\ W 0 0 = - 'i, W_exact 0 0 = 'i, closed_form 0 0 = 'i
          & col 0 W <> closed_form]].
Proof.
move=> iA iB iC closed_form.
exists (primal_model A_zero B_one), (adjoint_model A_zero C_i false).
exists (rom_V A_zero B_one 1%:M), (rom_W A_zero C_i false 1%:M).
exists (reductor_V A_zero B_one 1%:M), (reductor_W A_zero C_i false 1%:M).
exists (weighted_columns (primal_solution A_zero B_one) [:: 1] [:: 1]).
exists (weighted_columns (adjoint_solution A_zero C_i false) [:: 1] [:: 1]).
exists (weighted_columns (primal_solution A_zero B_one) [:: 1] [:: 1]).
exists (weighted_columns (exact_adjoint_solution A_zero C_i) [:: 1] [:: 1]).
have inv1 : invmx (1^* *: 1%:M - map_mx Num.conj A_zero^T) = 1%:M :> M1.
  by rewrite conjC1 scale1r /A_zero trmx0 map_mx0 subr0 invmx1.
have W00 : weighted_columns (adjoint_solution A_zero C_i false) [:: 1] [:: 1] 0 0
           = - 'i.
  rewrite /weighted_columns mxE /= mulr1 /adjoint_solution /adjoint_rhs /=.
  rewrite -/(pencil _ _) /pencil inv1 mul1mx !mxE /= mulr1n.
  exact: conjCi.
have We00 : weighted_columns (exact_adjoint_solution A_zero C_i) [:: 1] [:: 1] 0 0
            = 'i.
  rewrite /weighted_columns mxE /= mulr1 exact_adjoint_solutionE.
  by rewrite /pencil inv1 mul1mx !mxE /= mulr1n.
have cf00 : closed_form 0 0 = 'i.
  by rewrite /closed_form inv1 mul1mx scale1r !mxE /= mulr1n.
split.
- exact: (Projection_MatrixModel_typed A_zero B_one C_i true true false).
- by apply: (@MatrixReductor_full_order _ _ _ _ _ _ _ _
               (orthonormal_columns_1 K 1) (orthonormal_columns_1 K 1)
               svd_id [:: 1] _ _ [:: 1] [:: 1] (Ndarray 1%:M) (Ndarray 1%:M));
       first exact: solve_both_order_one.
- rewrite (ProjectionMatrices_full_order B_one C_i false
             (orthonormal_columns_1 K 1) (orthonormal_columns_1 K 1) true) //.
  exact: A_zero_unit_in.
- rewrite (exact_full_order B_one C_i true false true) //.
  exact: A_zero_unit_in.
- split=> // /matrixP /(_ 0 0); rewrite mxE W00 cf00 => /eqP.
  by rewrite eq_sym -addr_eq0 -mulr2n mulrn_eq0 /= (negbTE (neq0Ci _)).
Qed.

(** A 2 x 3 snapshot matrix and the requested rank 3. *)
Lemma rank_exceeded_raises_witness :
  let S := Ndarray (0 : 'M[algC]_(2, 3)) in
  [/\ Transfer.pod_basis_numpy svd_id S 3 =
        Raise (ValueError "modes cannot exceed the rank of the snapshot matrix."),
      forall (model_V model_W : stationary_model K) (ts : seq K)
             (S_V S_W : VectorArray K) (k_W : nat),
        Projection.solve_both model_V model_W (empty K (order model_V))
          (empty K (order model_W)) ts = Ok (S_V, S_W) ->
        transpose (to_numpy S_V) = S ->
        Projection.MatrixReductor svd_id model_V model_W ts 3 k_W =
        Raise (ValueError
          "'reduced_order_V' cannot exceed the rank of the snapshot matrix.")
    & forall (model_V model_W : stationary_model K) (ts : seq K)
             (S_V S_W : VectorArray K) (k_V : nat),
        Projection.solve_both model_V model_W (empty K (order model_V))
          (empty K (order model_W)) ts = Ok (S_V, S_W) ->
        transpose (to_numpy S_W) = S ->
        (k_V <= minn (ncols (to_numpy S_V)) (nrows (to_numpy S_V)))%N ->
        Projection.MatrixReductor svd_id model_V model_W ts k_V 3 =
        Raise (ValueError
          "'reduced_order_W' cannot exceed the rank of the snapshot matrix.")].
Proof.
apply: (@rank_exceeded_raises K svd_id (Ndarray (0 : 'M[algC]_(2, 3))) 3).
by [].
Defined.

(** The same failure on a run: the system of order one, one training
    parameter, and the requested order 2 for V. *)
Lemma MatrixReductor_order_one_exceeded :
  Projection.MatrixReductor svd_id (primal_model A_zero B_one)
    (adjoint_model A_zero C_one true) [:: 1] 2 1 =
  Raise (ValueError
    "'reduced_order_V' cannot exceed the rank of the snapshot matrix.").
Proof.
apply: MatrixReductor_exceeded_V; first exact: solve_both_order_one.
by [].
Qed.

Lemma singular_rom_solve : solve singular_rom 1 = Raise InversionError.
Proof.
rewrite /singular_rom solve2E /= scale1r scaleN1r subrr.
by rewrite zero_not_unit.
Qed.

Lemma reconstructed_solutions_singular :
  Projection.reconstructed_solutions singular_rom singular_reductor
    singular_rom singular_reductor [:: 1] = Raise InversionError.
Proof.
by rewrite /Projection.reconstructed_solutions /= singular_rom_solve.
Qed.

(** C5, counterexample: one interpolation point, no weight in [b], one in
    [c]; the reduced solve at the point fails first and the call raises
    [InversionError], not the shape error. *)
Lemma ProjectionMatrices_mismatch_other_error :
  size ([::] : seq K) <> size [:: (1 : K)] /\
  Projection.ProjectionMatrices singular_rom singular_reductor
    singular_rom singular_reductor [:: 1] [::] [:: 1] true =
  Raise InversionError.
Proof.
split=> //.
by rewrite /Projection.ProjectionMatrices reconstructed_solutions_singular.
Qed.

Lemma ProjectionMatrices_length_mismatch_witness :
  Projection.ProjectionMatrices
    (rom_V A_zero B_one 1%:M) (reductor_V A_zero B_one 1%:M)
    (rom_W A_zero C_one true 1%:M) (reductor_W A_zero C_one true 1%:M)
    [:: 1] [::] [:: 1] true =
  match Projection.reconstructed_solutions
          (rom_V A_zero B_one 1%:M) (reductor_V A_zero B_one 1%:M)
          (rom_W A_zero C_one true 1%:M) (reductor_W A_zero C_one true 1%:M)
          [:: 1] with
  | Ok _ => Raise (ValueError
      "matmul: Input operand 1 has a mismatch in its core dimension 0")
  | Raise e => Raise e
  end.
Proof.
apply: ProjectionMatrices_length_mismatch.
by [].
Defined.

(** On that input the reduced solutions are computed, so the error is the
    shape error. *)
Lemma ProjectionMatrices_order_one_mismatch :
  Projection.ProjectionMatrices
    (rom_V A_zero B_one 1%:M) (reductor_V A_zero B_one 1%:M)
    (rom_W A_zero C_one true 1%:M) (reductor_W A_zero C_one true 1%:M)
    [:: 1] [::] [:: 1] true =
  Raise (ValueError
    "matmul: Input operand 1 has a mismatch in its core dimension 0").
Proof.
apply: ProjectionMatrices_mismatch => //.
apply: (reconstructed_solutions_full_order B_one C_one true
          (orthonormal_columns_1 K 1) (orthonormal_columns_1 K 1)).
exact: A_zero_unit_in.
Qed.



(** C7, counterexample: two runs of the sampling of [TFROM] with the same
    arguments, one after the other in the same process; the generator
    delivers 0 and then 1/2, and the training sets differ. *)
Lemma training_set_not_reproducible :
  let run1 := Transfer.training_set [:: 0; 1] 1 fresh_generator in
  let run2 := Transfer.training_set [:: 0; 1] 1 run1.2 in
  [/\ run1.1 = Ok [:: 0], run2.1 = Ok [:: 2^-1] & run1.1 <> run2.1].
Proof.
rewrite /Transfer.training_set /uniform /= !subr0 !add0r mulr0 mul1r.
split=> // -[] /eqP; rewrite eq_sym invr_eq0 pnatr_eq0 //.
Qed.

Lemma TFROM_determined_by_draws_witness :
  let model := Transfer.MkLTIModel (FromArray (Ndarray A_zero))
                 (FromArray (Ndarray B_one)) (FromArray (Ndarray C_one)) in
  let rng : seq K := [:: 0; 1] in
  [/\ (Transfer.training_set rng 1 fresh_generator).1 =
      (Transfer.training_set rng 1 other_generator).1,
      (Transfer.TFROM pod_id model rng 1 None 0 0 fresh_generator).1 =
      (Transfer.TFROM pod_id model rng 1 None 0 0 other_generator).1
    & is_ok (Transfer.MatrixModel (Transfer.lti_A model) (Transfer.lti_B model)
               (Transfer.lti_C model)) ->
      position (Transfer.TFROM pod_id model rng 1 None 0 0
                  fresh_generator).2 =
      (position fresh_generator + draws_needed rng 1)%N].
Proof.
apply: TFROM_determined_by_draws.
by case.
Defined.

End Instances.

(** C8, at the failing input: the singular values 0.9, 0.8, 0.5, 0.4, 0.3,
    0.2, 0.2, 0.1 and the energy fraction 1.0.  The last cumulated sum is
    2.04 and [np.sum], which adds in another order, returns
    2.0400000000000005: no computed fraction reaches 1.0, [np.argmax] finds
    no [True], and the cell returns 1 mode.  For the numbers that these
    binary64 numbers denote, the smallest rank whose cumulated energy reaches
    the total is 8.  At the fraction 0.99 the cell and the rule agree on
    7 modes. *)
Theorem energy_modes_misses_full_energy :
  let squares := [seq Transfer.square d | d <- D_rounding] in
  let sigma := [seq float_value d | d <- D_rounding] in
  [/\ Transfer.energy_modes D_rounding theta_all = Ok 1%N,
      energy_fraction_rank sigma (float_value theta_all) = Some 8%N,
      last 0%float (Transfer.cumsum squares) = 2.04%float /\
      Transfer.sum squares = 2.0400000000000005%float,
      Transfer.energy_modes D_rounding theta_99 = Ok 7%N
    & energy_fraction_rank sigma (float_value theta_99) = Some 7%N].
Proof.
split; [by vm_compute | by vm_compute | by split; vm_compute
       | by vm_compute | by vm_compute].
Qed.

(** * Further properties of the notebooks *)

(** ** Systems with several inputs and outputs *)

Section FullOrderOutputs.

Variable K : numClosedFieldType.
Local Notation conj_mx := (map_mx (@Num.conj K)).

Variables (n p m : nat) (A : 'M[K]_n) (C : 'M[K]_(p, n)).
Variables (fa fb fc : bool).

Lemma TF_exact_typed (B : 'M[K]_(n, m)) (s : K) :
  s *: 1%:M - A \in unitmx ->
  Transfer.TF_exact (FromArray (Ndarray A)) (as_input fb (Ndarray B))
    (as_input fc (Ndarray C)) s =
  Ok (Ndarray (C *m invmx (s *: 1%:M - A) *m B)).
Proof.
move=> uM; rewrite /Transfer.TF_exact !to_array_as_input /= scaleE subtractE /=.
by rewrite invE //= matmulE /= matmulE.
Qed.

Lemma output_model_built (B : 'M[K]_(n, 1)) :
  Transfer.MatrixModel (as_input fa (Ndarray A)) (as_input fb (Ndarray B))
    (as_input fc (Ndarray C)) = Ok (output_model A B C).
Proof.
rewrite Transfer_MatrixModelE /state_input_consistent !to_array_as_input /=.
rewrite !eqxx /= /primal_operator !to_operator_as_input.
by rewrite to_array_as_input.
Qed.

Lemma output_model_solve (B : 'M[K]_(n, 1)) (s : K) :
  solve (output_model A B C) s =
  if pencil A s \in unitmx
  then Ok (NumpyVectorArray (Ndarray (invmx (pencil A s) *m B)^T))
  else Raise InversionError.
Proof. by rewrite /output_model solve2E /= pencilE. Qed.

Lemma output_model_output (B : 'M[K]_(n, 1)) (s : K) :
  pencil A s \in unitmx ->
  output (output_model A B C) s =
  Ok (Ndarray (C *m invmx (pencil A s) *m B)^T).
Proof.
move=> uM; rewrite /output output_model_solve uM /=.
rewrite /output_model /= applyE /=; congr (Ok (Ndarray _)).
by rewrite -trmx_mul mulmxA.
Qed.

End FullOrderOutputs.

(** ** Shapes that [TF_exact] does not check *)

Section TFExactShapes.

Variable K : numClosedFieldType.

Local Notation mismatch := (ValueError
  "matmul: Input operand 1 has a mismatch in its core dimension 0").

Lemma TF_exact_shape_mismatch (n : nat) (A : 'M[K]_n)
    (B C : pyinput K) (s : K) :
  pencil A s \in unitmx ->
  ~~ ((ncols (to_array C) == n) && (nrows (to_array B) == n)) ->
  Transfer.TF_exact (FromArray (Ndarray A)) B C s = Raise mismatch.
Proof.
move=> uM; rewrite /Transfer.TF_exact /=.
rewrite scaleE subtractE /= invE //=.
case EC: (ncols (to_array C) == n) => /=; last first.
  by move=> _; rewrite matmul_mismatch //= EC.
move=> EB; rewrite {1}/matmul /= EC /=.
by rewrite matmul_mismatch //= eq_sym.
Qed.

Lemma subtract_column (n : nat) (X : 'M[K]_n) (a : 'M[K]_(n, 1)) :
  subtract (Ndarray X) (Ndarray a) = Ok (Ndarray (X - a *m const_mx 1)).
Proof.
rewrite /subtract /broadcast_dim /= eqxx.
have -> : (if n == 1%N then Some n else if n == 1%N then Some 1%N
           else Some n) = Some n.
  by case: (n == 1%N).
congr (Ok (Ndarray _)); apply/matrixP => i j.
rewrite !mxE broadcast_item_same big_ord1 !mxE mulr1.
rewrite /broadcast_item /=; congr (_ - _).
case: ifP => [/eqP n1|_]; last exact: (item_Ndarray a i 0).
rewrite -(item_Ndarray a i 0); congr (item _ _ _).
by case: (i) => i' /=; rewrite n1 ltnS leqn0 => /eqP.
Qed.

End TFExactShapes.

(** ** The offline phase *)

Section TFROMProps.

Variable K : numClosedFieldType.
Local Notation conj_mx := (map_mx (@Num.conj K)).
Lemma training_set_bad_range (rng : seq K) (snap : nat) (st : RandomState K) :
  size rng != 2%N -> size rng != 4%N ->
  Transfer.training_set rng snap st = (Raise UnboundLocalError, st).
Proof. by case: rng => [|lo [|hi [|ilo [|ihi [|x rng]]]]]. Qed.

Section System.

Variables (n p : nat) (A : 'M[K]_n) (B : 'M[K]_(n, 1)) (C : 'M[K]_(p, n)).
Lemma snapshots_regular (mu : seq K) :
  all (fun s => pencil A s \in unitmx) mu ->
  Transfer.snapshots (output_model A B C) (empty K n) mu =
  Ok (NumpyVectorArray
        (Ndarray (rows_mx (fun s => (primal_solution A B s)^T) mu))).
Proof.
move=> /allP reg; apply: snapshots_rows => s smu.
by rewrite output_model_solve reg.
Qed.

Lemma galerkin_reduce k (R : 'M[K]_(k, n)) :
  reduce (Reductor (output_model A B C) (NumpyVectorArray (Ndarray R))) =
  Ok (galerkin_rom R A B C).
Proof.
by rewrite /output_model reduce2E /source /= ?eqxx //= as_mxK.
Qed.

Lemma reduced_combination k (R : 'M[K]_(k, n)) (s : K) :
  s *: (conj_mx R *m 1%:M *m R^T) + (-1) *: (conj_mx R *m A *m R^T) =
  reduced_pencil R A s.
Proof.
rewrite /reduced_pencil /pencil mulmxBr mulmxBl scaleN1r.
by rewrite -scalemxAr -scalemxAl.
Qed.

Lemma galerkin_rom_solve k (R : 'M[K]_(k, n)) (s : K) :
  solve (galerkin_rom R A B C) s =
  if reduced_pencil R A s \in unitmx
  then Ok (NumpyVectorArray
             (Ndarray (invmx (reduced_pencil R A s) *m (conj_mx R *m B))^T))
  else Raise InversionError.
Proof.
by rewrite /galerkin_rom /galerkin_model solve2E /= reduced_combination.
Qed.

Lemma galerkin_rom_output k (R : 'M[K]_(k, n)) (s : K) :
  output (galerkin_rom R A B C) s =
  if reduced_pencil R A s \in unitmx
  then Ok (Ndarray ((C *m R^T) *m invmx (reduced_pencil R A s) *m
                    (conj_mx R *m B))^T)
  else Raise InversionError.
Proof.
rewrite /output galerkin_rom_solve; case: ifP => //= uM.
rewrite /galerkin_rom /galerkin_model /= applyE /=; congr (Ok (Ndarray _)).
by rewrite -trmx_mul mulmxA.
Qed.

Lemma galerkin_rom_in_span k (R : 'M[K]_(k, n)) (s : K) (y : 'cV[K]_k) :
  pencil A s *m (R^T *m y) = B ->
  reduced_pencil R A s \in unitmx ->
  invmx (reduced_pencil R A s) *m (conj_mx R *m B) = y.
Proof.
move=> sol uM.
have -> : conj_mx R *m B = reduced_pencil R A s *m y.
  by rewrite -sol /reduced_pencil !mulmxA.
by rewrite mulKmx.
Qed.

End System.
End TFROMProps.

(** ** The reduced basis of the NumPy cell *)

Section PodBasis.

Variable K : numClosedFieldType.
Local Notation conj_mx := (map_mx (@Num.conj K)).
Variable svd : ndarray K -> ndarray K * seq K * ndarray K.

Lemma take_columns_le m c k (X : 'M[K]_(m, c)) :
  (k <= c)%N -> take_columns (Ndarray X) k = Ndarray (leading_columns k X).
Proof.
move=> /minn_idPl kc; rewrite /take_columns /=.
apply: (@Ndarray_ext _ _ _ _ _ (erefl m) kc) => i j.
by rewrite !mxE cast_ord_id.
Qed.

Lemma leading_columnsE m c k (X : 'M[K]_(m, c)) (kc : (k <= c)%N) i j :
  leading_columns k X i j = X i (widen_ord kc j).
Proof. by rewrite mxE -(item_Ndarray X i (widen_ord kc j)). Qed.

Lemma leading_columns_orthonormal n k (U : 'M[K]_n) :
  (k <= n)%N -> conj_mx U^T *m U = 1%:M ->
  conj_mx (leading_columns k U)^T *m leading_columns k U = 1%:M.
Proof.
move=> kn /matrixP orth; apply/matrixP => i j.
have := orth (widen_ord kn i) (widen_ord kn j).
rewrite !mxE => <-; apply: eq_bigr => l _.
by rewrite !mxE -!(item_Ndarray U).
Qed.

Lemma pod_basis_numpy_leading n c (S : 'M[K]_(n, c)) (U : 'M[K]_n)
    (D : seq K) (Vt : ndarray K) (k : nat) :
  svd (Ndarray S) = (Ndarray U, D, Vt) -> (k <= minn n c)%N ->
  Transfer.pod_basis_numpy svd (Ndarray S) k = Ok (Ndarray (leading_columns k U)).
Proof.
move=> HU kmin; rewrite /Transfer.pod_basis_numpy HU /= ltnNge kmin /=.
by rewrite take_columns_le // (leq_trans kmin) // geq_minl.
Qed.

End PodBasis.

(** ** The two models of the projection-matrix notebook *)

Section ProjectionModels.

Variable K : numClosedFieldType.
Local Notation conj_mx := (map_mx (@Num.conj K)).
Variables (n : nat) (A : 'M[K]_n) (B : 'M[K]_(n, 1)) (C : 'M[K]_(1, n)).
Variable fc : bool.

Lemma primal_model_solve (s : K) :
  solve (primal_model A B) s =
  if pencil A s \in unitmx
  then Ok (NumpyVectorArray (Ndarray (primal_solution A B s)^T))
  else Raise InversionError.
Proof. by rewrite /primal_model solve2E /= pencilE. Qed.

Lemma adjoint_model_solve (s : K) :
  solve (adjoint_model A C fc) s =
  if pencil A s \in unitmx
  then Ok (NumpyVectorArray (Ndarray (adjoint_solution A C fc s)^T))
  else Raise InversionError.
Proof.
by rewrite /adjoint_model solve2E /= pencilE adjoint_pencil_unit.
Qed.

Lemma solve_both_regular (ts : seq K) :
  all (fun s => pencil A s \in unitmx) ts ->
  Projection.solve_both (primal_model A B) (adjoint_model A C fc)
    (empty K n) (empty K n) ts =
  Ok (NumpyVectorArray
        (Ndarray (rows_mx (fun s => (primal_solution A B s)^T) ts)),
      NumpyVectorArray
        (Ndarray (rows_mx (fun s => (adjoint_solution A C fc s)^T) ts))).
Proof.
move=> /allP reg; apply: (solve_both_rows (n_V := n) (n_W := n)) => s smu.
  by rewrite primal_model_solve reg.
by rewrite adjoint_model_solve reg.
Qed.

Lemma galerkin_model_reduce k (R : 'M[K]_(k, n)) (A1 : 'M[K]_n)
    (B1 : 'M[K]_(n, 1)) (f1 f2 : functional K) :
  reduce (Reductor
            (Model (Lincomb [:: NumpyMatrixOperator (Ndarray (1%:M : 'M[K]_n));
                                NumpyMatrixOperator (Ndarray A1)] [:: f1; f2])
                   (NumpyMatrixOperator (Ndarray B1)) None)
            (NumpyVectorArray (Ndarray R))) =
  Ok (galerkin_model R A1 B1 f1 f2 None).
Proof. by rewrite reduce2E. Qed.

End ProjectionModels.

(** ** Galerkin projection on the span of the basis *)

Section GalerkinSpan.

Variable K : numClosedFieldType.
Local Notation conj_mx := (map_mx (@Num.conj K)).

Section OneModel.

Variables (n k : nat) (R : 'M[K]_(k, n)).
Variables (A1 : 'M[K]_n) (B1 : 'M[K]_(n, 1)) (f1 f2 : functional K).
Variable out : option (matrix_operator K).

Lemma galerkin_combination (x y : K) :
  x *: (conj_mx R *m 1%:M *m R^T) + y *: (conj_mx R *m A1 *m R^T) =
  conj_mx R *m (x *: 1%:M + y *: A1) *m R^T.
Proof. by rewrite mulmxDr mulmxDl -!scalemxAr -!scalemxAl. Qed.

Lemma galerkin_model_solve (s : K) :
  let M := evaluate f1 s *: 1%:M + evaluate f2 s *: A1 in
  solve (galerkin_model R A1 B1 f1 f2 out) s =
  if conj_mx R *m M *m R^T \in unitmx
  then Ok (NumpyVectorArray
             (Ndarray (invmx (conj_mx R *m M *m R^T) *m (conj_mx R *m B1))^T))
  else Raise InversionError.
Proof. by rewrite /galerkin_model solve2E /= galerkin_combination. Qed.

Lemma galerkin_in_span (M : 'M[K]_n) (y : 'cV[K]_k) :
  M *m (R^T *m y) = B1 -> conj_mx R *m M *m R^T \in unitmx ->
  invmx (conj_mx R *m M *m R^T) *m (conj_mx R *m B1) = y.
Proof.
move=> sol uM.
have -> : conj_mx R *m B1 = (conj_mx R *m M *m R^T) *m y.
  by rewrite -sol !mulmxA.
by rewrite mulKmx.
Qed.

Lemma galerkin_reconstruct (fom : stationary_model K) (y : K -> 'cV[K]_k)
    (mu : seq K) :
  reconstruct (Reductor fom (NumpyVectorArray (Ndarray R)))
    (NumpyVectorArray (Ndarray (rows_mx (fun s => (y s)^T) mu))) =
  Ok (NumpyVectorArray (Ndarray (rows_mx (fun s => (R^T *m y s)^T) mu))).
Proof.
rewrite reconstructE rows_mx_mul; congr (Ok (NumpyVectorArray (Ndarray _))).
by apply: eq_rows_mx => s _; rewrite trmx_mul trmxK.
Qed.

End OneModel.

Section TwoModels.

Variables (n k_V k_W : nat) (A : 'M[K]_n) (B : 'M[K]_(n, 1)) (C : 'M[K]_(1, n)).
Variable fc : bool.
Variables (R_V : 'M[K]_(k_V, n)) (R_W : 'M[K]_(k_W, n)).
Variables (y_V : K -> 'cV[K]_k_V) (y_W : K -> 'cV[K]_k_W).

Local Notation rom_V :=
  (galerkin_model R_V A B (ProjectionParameterFunctional K) (Number (-1))
     None).
Local Notation rom_W :=
  (galerkin_model R_W (conj_mx A^T) (adjoint_rhs C fc)
     (ConjugateParameterFunctional (ProjectionParameterFunctional K))
     (Number (-1)) None).
Local Notation red_V :=
  (Reductor (primal_model A B) (NumpyVectorArray (Ndarray R_V))).
Local Notation red_W :=
  (Reductor (adjoint_model A C fc) (NumpyVectorArray (Ndarray R_W))).

Lemma ProjectionMatrices_in_span (mu b c : seq K) (numpy : bool) :
  {in mu, forall s, pencil A s *m (R_V^T *m y_V s) = B} ->
  {in mu, forall s, reduced_pencil R_V A s \in unitmx} ->
  {in mu, forall s,
     pencil (conj_mx A^T) s^* *m (R_W^T *m y_W s) = adjoint_rhs C fc} ->
  {in mu, forall s, reduced_pencil R_W (conj_mx A^T) s^* \in unitmx} ->
  size b = size mu -> size c = size mu ->
  let V := weighted_columns (fun s => R_V^T *m y_V s) mu b in
  let W := weighted_columns (fun s => R_W^T *m y_W s) mu c in
  Projection.ProjectionMatrices rom_V red_V rom_W red_W mu b c numpy =
  Ok (returned numpy V, returned numpy W).
Proof.
move=> sol_V unit_V sol_W unit_W sb sc V W.
rewrite /Projection.ProjectionMatrices /Projection.reconstructed_solutions.
rewrite (solve_both_rows (n_V := k_V) (n_W := k_W)
           (f_V := fun s => (y_V s)^T) (f_W := fun s => (y_W s)^T)) /=.
- move=> s smu; rewrite galerkin_model_solve /= pencilE.
  have uV := unit_V s smu; rewrite /reduced_pencil in uV.
  by rewrite uV (galerkin_in_span (y := y_V s)) ?sol_V.
- move=> s smu; rewrite galerkin_model_solve /= pencilE.
  have uW := unit_W s smu; rewrite /reduced_pencil in uW.
  by rewrite uW (galerkin_in_span (y := y_W s)) ?sol_W.
rewrite !galerkin_reconstruct /=.
rewrite /make_array /assert /= !eqxx /= !transposeE !rows_mx_tr.
rewrite !scale_columns //=.
by rewrite /returned; case: numpy => //; rewrite /make_array /assert /= !eqxx.
Qed.

End TwoModels.

End GalerkinSpan.

(** ** The biorthogonalization of [Gram] *)

Section GramFlags.

Variable K : numClosedFieldType.
Variable gram_schmidt : VectorArray K -> K -> K -> K -> result (VectorArray K).

Local Notation Gram := (Projection.Gram gram_schmidt).
Local Notation tol := (Projection.check_tol K).

Lemma matmul_ok (X Y Z : ndarray K) :
  matmul X Y = Ok Z -> [/\ ncols X = nrows Y, nrows Z = nrows X & ncols Z = ncols Y].
Proof.
by rewrite /matmul; case: eqP => // e [<-].
Qed.

Lemma inv_not_square (X : ndarray K) :
  nrows X != ncols X ->
  inv X = Raise (LinAlgError "Last 2 dimensions of the array must be square").
Proof. by rewrite /inv => /negbTE ->. Qed.

Lemma Gram_biort_unequal_sizes (V W : VectorArray K) (n r q : nat)
    (Vo : 'M[K]_(n, r)) (Wo : 'M[K]_(n, q)) (numpy : bool) :
  gram_schmidt V 0 0 tol = Ok (NumpyVectorArray (Ndarray Vo^T)) ->
  gram_schmidt W 0 0 tol = Ok (NumpyVectorArray (Ndarray Wo^T)) ->
  q != r ->
  Gram V W true numpy =
  Raise (LinAlgError "Last 2 dimensions of the array must be square").
Proof.
move=> HV HW qr.
rewrite /Projection.Gram HV HW /= !transposeE !trmxK matmulE /=.
by rewrite inv_not_square.
Qed.

Lemma Gram_biort_unequal_dimensions (V W : VectorArray K) (n n' r q : nat)
    (Vo : 'M[K]_(n, r)) (Wo : 'M[K]_(n', q)) (numpy : bool) :
  gram_schmidt V 0 0 tol = Ok (NumpyVectorArray (Ndarray Vo^T)) ->
  gram_schmidt W 0 0 tol = Ok (NumpyVectorArray (Ndarray Wo^T)) ->
  n' != n ->
  Gram V W true numpy =
  Raise (ValueError
    "matmul: Input operand 1 has a mismatch in its core dimension 0").
Proof.
move=> HV HW nn.
rewrite /Projection.Gram HV HW /= !transposeE !trmxK.
by rewrite matmul_mismatch.
Qed.

End GramFlags.

(** ** The norms of [error] *)

Section ErrorProps.

Variable K : numClosedFieldType.
Implicit Types (x : seq K).

Lemma max_eq0 (y z : K) :
  0 <= y -> 0 <= z -> (Num.max y z == 0) = (y == 0) && (z == 0).
Proof.
move=> y0 z0; rewrite /Num.max; case: ifP => [yz|/negbT].
  have z_gt0 : 0 < z by apply: le_lt_trans yz.
  by rewrite (gt_eqF z_gt0) andbF.
rewrite -real_leNgt ?ger0_real // => zy.
case: (eqVneq y 0) zy => [-> zy|//].
by rewrite /= eq_le z0 zy.
Qed.

Lemma foldl_max_eq0 (y : K) x :
  0 <= y -> {in x, forall z, 0 <= z} ->
  (0 <= foldl Num.max y x) /\
  (foldl Num.max y x == 0) = (y == 0) && all (fun z => z == 0) x.
Proof.
elim: x y => [|z x IH] y y0 x0 /=; first by rewrite andbT.
have z0 : 0 <= z by apply: x0; rewrite mem_head.
have m0 : 0 <= Num.max y z by rewrite /Num.max; case: ifP.
have x0' : {in x, forall t, 0 <= t}.
  by move=> t tx; apply: x0; rewrite in_cons tx orbT.
have [-> ->] := IH (Num.max y z) m0 x0'.
by rewrite max_eq0 // andbA.
Qed.

Lemma amax_eq0 x :
  x != [::] -> {in x, forall z, 0 <= z} ->
  exists v : K, amax x = Ok v /\ (v == 0) = all (fun z => z == 0) x.
Proof.
case: x => [|y x] // _ x0; exists (foldl Num.max y x); split=> //=.
have y0 : 0 <= y by apply: x0; rewrite mem_head.
have x0' : {in x, forall z, 0 <= z}.
  by move=> t tx; apply: x0; rewrite in_cons tx orbT.
by have [_ ->] := foldl_max_eq0 y0 x0'.
Qed.

Lemma row_sums_eq0 m k (X : 'M[K]_(m, k)) :
  all (fun z => z == 0) (row_sums (Ndarray X)) = (X == 0).
Proof.
apply/idP/eqP => [/allP zero|->]; last first.
  apply/allP => z /mapP [i _ ->] /=.
  by rewrite big1 // => j _; rewrite mxE normr0.
apply/matrixP => i j; rewrite mxE.
have /zero : \sum_j `|X i j| \in row_sums (Ndarray X).
  by apply/mapP; exists i; rewrite ?mem_enum.
rewrite psumr_eq0 // => /allP /(_ j); rewrite mem_index_enum /= => /(_ isT).
by rewrite normr_eq0 => /eqP.
Qed.

Lemma column_sums_eq0 m k (X : 'M[K]_(m, k)) :
  all (fun z => z == 0) (column_sums (Ndarray X)) = (X == 0).
Proof.
apply/idP/eqP => [/allP zero|->]; last first.
  apply/allP => z /mapP [j _ ->] /=.
  by rewrite big1 // => i _; rewrite mxE normr0.
apply/matrixP => i j; rewrite mxE.
have /zero : \sum_i `|X i j| \in column_sums (Ndarray X).
  by apply/mapP; exists j; rewrite ?mem_enum.
rewrite psumr_eq0 // => /allP /(_ i); rewrite mem_index_enum /= => /(_ isT).
by rewrite normr_eq0 => /eqP.
Qed.

Lemma linalg_norm_eq0 m k (X : 'M[K]_(m, k)) (ord : norm_order) :
  ord = OrdInf \/ ord = OrdOne -> (0 < m)%N -> (0 < k)%N ->
  exists v : K, linalg_norm (Ndarray X) ord = Ok v /\ (v == 0) = (X == 0).
Proof.
move=> sums m0 k0; case: ord sums => /=.
- by case.
- have ne : row_sums (Ndarray X) != [::].
    by rewrite -size_eq0 size_map size_enum_ord -lt0n.
  have pos : {in row_sums (Ndarray X), forall z, 0 <= z}.
    by move=> z /mapP [i _ ->]; apply: sumr_ge0.
  have [v [Hv v0]] := amax_eq0 ne pos.
  by move=> _; exists v; rewrite Hv v0 row_sums_eq0.
- have ne : column_sums (Ndarray X) != [::].
    by rewrite -size_eq0 size_map size_enum_ord -lt0n.
  have pos : {in column_sums (Ndarray X), forall z, 0 <= z}.
    by move=> z /mapP [i _ ->]; apply: sumr_ge0.
  have [v [Hv v0]] := amax_eq0 ne pos.
  by move=> _; exists v; rewrite Hv v0 column_sums_eq0.
Qed.

Lemma errorE (m k m' k' : nat) (Ve V : 'M[K]_(m, k))
    (We W : 'M[K]_(m', k')) (xVe xWe xV xW : Projection.pyvalue K)
    (ord : norm_order) :
  Projection.to_ndarray xVe = Ndarray Ve -> Projection.to_ndarray xV = Ndarray V ->
  Projection.to_ndarray xWe = Ndarray We -> Projection.to_ndarray xW = Ndarray W ->
  Projection.error xVe xWe xV xW ord =
  (error_V <- linalg_norm (Ndarray (Ve - V)) ord ;;
   error_W <- linalg_norm (Ndarray (We - W)) ord ;;
   Ok (error_V, error_W)).
Proof.
by move=> EVe EV EWe EW; rewrite /Projection.error EVe EV EWe EW !subtractE.
Qed.

Lemma row_sums_tr m k (X : 'M[K]_(m, k)) :
  row_sums (Ndarray X^T) = column_sums (Ndarray X).
Proof.
by apply: eq_map => j /=; apply: eq_bigr => i _; rewrite mxE.
Qed.

Lemma column_sums_tr m k (X : 'M[K]_(m, k)) :
  column_sums (Ndarray X^T) = row_sums (Ndarray X).
Proof.
by apply: eq_map => j /=; apply: eq_bigr => i _; rewrite mxE.
Qed.

Lemma frobenius_tr m k (X : 'M[K]_(m, k)) :
  \sum_i \sum_j `|X^T i j| ^+ 2 = \sum_i \sum_j `|X i j| ^+ 2.
Proof.
rewrite exchange_big /=; apply: eq_bigr => i _; apply: eq_bigr => j _.
by rewrite mxE.
Qed.

Lemma linalg_norm_tr m k (X : 'M[K]_(m, k)) :
  [/\ linalg_norm (Ndarray X^T) OrdInf = linalg_norm (Ndarray X) OrdOne,
      linalg_norm (Ndarray X^T) OrdOne = linalg_norm (Ndarray X) OrdInf
    & linalg_norm (Ndarray X^T) OrdFro = linalg_norm (Ndarray X) OrdFro].
Proof.
by split; rewrite /= ?row_sums_tr ?column_sums_tr ?frobenius_tr.
Qed.

End ErrorProps.

(** ** The flag [numpy], and empty lists of points *)

Section NumpyFlag.

Variable K : numClosedFieldType.
Local Notation Array := (@Projection.Array K).
Local Notation VArray := (@Projection.VArray K).

Lemma ProjectionMatrices_numpy_representation
    (pod_rom_V : stationary_model K) (pod_reductor_V : reductor K)
    (pod_rom_W : stationary_model K) (pod_reductor_W : reductor K)
    (mu b c : seq K) :
  Projection.ProjectionMatrices pod_rom_V pod_reductor_V
    pod_rom_W pod_reductor_W mu b c false =
  match Projection.ProjectionMatrices pod_rom_V pod_reductor_V
          pod_rom_W pod_reductor_W mu b c true with
  | Ok (X, Y) =>
      if nrows (columns Y) == nrows (columns X)
      then Ok (VArray (NumpyVectorArray (transpose (columns X))),
               VArray (NumpyVectorArray (transpose (columns Y))))
      else Raise AssertionError
  | Raise e => Raise e
  end.
Proof.
rewrite /Projection.ProjectionMatrices.
case: (Projection.reconstructed_solutions _ _ _ _ _) => [[R_V R_W]|e] //=.
case: (matmul R_V _) => [V_numpy|e] //=.
case: (matmul R_W _) => [W_numpy|e] //=.
by rewrite /make_array /assert /= eqxx /=; case: ifP.
Qed.

Lemma exact_numpy_representation (A B C : pyinput K) (mu b c : seq K) :
  Projection.exact A B C mu b c false =
  match Projection.exact A B C mu b c true with
  | Ok (X, Y) =>
      if nrows (columns Y) == nrows (columns X)
      then Ok (VArray (NumpyVectorArray (transpose (columns X))),
               VArray (NumpyVectorArray (transpose (columns Y))))
      else Raise AssertionError
  | Raise e => Raise e
  end.
Proof.
rewrite /Projection.exact; case: A => [A|A] //=.
case: (comprehension _ _) => [V_columns|e] //=.
case: (hstack V_columns) => [V_stack|e] //=.
case: (matmul V_stack _) => [V_exact|e] //=.
case: (comprehension _ _) => [W_columns|e] //=.
case: (hstack W_columns) => [W_stack|e] //=.
case: (matmul W_stack _) => [W_exact|e] //=.
by rewrite /make_array /assert /= eqxx /=; case: ifP.
Qed.

Lemma reconstruct_empty (red : reductor K) (k : nat) :
  (k <= nrows (to_numpy (RB red)))%N ->
  reconstruct red (empty K k) = Ok (empty K (dim (RB red))).
Proof.
move=> /minn_idPl kRB.
rewrite /reconstruct /lincomb /assert /dim /= kRB eqxx /=.
rewrite /matmul /= eqxx /= mul0mx.
by congr (Ok (NumpyVectorArray (Ndarray _))).
Qed.

End NumpyFlag.

(** ** The domain of the training set *)

Section TrainingDomain.

Variable K : numClosedFieldType.

Lemma uniform_size (low high : K) (k : nat) (st : RandomState K) :
  size (uniform low high k st).1 = k.
Proof. by rewrite /uniform /= size_map size_iota. Qed.

Lemma uniform_in_range (low high : K) (k : nat) (st : RandomState K) :
  (forall i, 0 <= stream st i < 1) -> low <= high ->
  {in (uniform low high k st).1, forall x, low <= x <= high}.
Proof.
move=> unit_u le_lh x /mapP [i _ ->].
have /andP [u0 /ltW u1] := unit_u (position st + i)%N.
have d0 : 0 <= high - low by rewrite subr_ge0.
rewrite lerDl mulr_ge0 //= -lerBrDl.
by rewrite -[X in _ <= X]mulr1 ler_wpM2l.
Qed.

Lemma training_set_real_range (lo hi : K) (snap : nat) (st : RandomState K) :
  (forall i, 0 <= stream st i < 1) -> lo <= hi ->
  exists ts : seq K,
    [/\ (Transfer.training_set [:: lo; hi] snap st).1 = Ok ts,
        size ts = snap
      & {in ts, forall s, lo <= s <= hi}].
Proof.
move=> unit_u le_lh; exists (uniform lo hi snap st).1; split=> //.
  exact: uniform_size.
exact: uniform_in_range.
Qed.

Lemma Re_Im_rect (x y : K) : x \is Num.real -> y \is Num.real ->
  'Re (x + 'i * y) = x /\ 'Im (x + 'i * y) = y.
Proof.
by move=> xr yr; rewrite (Re_rect xr yr) (Im_rect xr yr).
Qed.

Lemma mem_zip_both (S T : eqType) (s : seq S) (t : seq T) (x : S) (y : T) :
  (x, y) \in zip s t -> x \in s /\ y \in t.
Proof.
elim: s t => [|a s IH] [|b t] //=; rewrite !in_cons xpair_eqE.
case/orP => [/andP [/eqP -> /eqP ->]|/IH [-> ->]]; first by rewrite !eqxx.
by rewrite !orbT.
Qed.

Lemma training_set_complex_range (lo hi ilo ihi : K) (snap : nat)
    (st : RandomState K) :
  (forall i, 0 <= stream st i < 1) ->
  lo \is Num.real -> ilo \is Num.real -> lo <= hi -> ilo <= ihi ->
  exists ts : seq K,
    [/\ (Transfer.training_set [:: lo; hi; ilo; ihi] snap st).1 = Ok ts,
        size ts = snap
      & {in ts, forall s, (lo <= 'Re s <= hi) && (ilo <= 'Im s <= ihi)}].
Proof.
move=> unit_u lo_real ilo_real le_lh le_ilh.
pose st1 := (uniform lo hi snap st).2.
pose xs := (uniform lo hi snap st).1.
pose ys := (uniform ilo ihi snap st1).1.
exists [seq p.1 + 'i * p.2 | p <- zip xs ys]; split=> //.
  by rewrite size_map size_zip !uniform_size minnn.
move=> s /mapP [[x y] /mem_zip_both [xxs yys] ->] /=.
have /andP [lo_x x_hi] := uniform_in_range unit_u le_lh xxs.
have /andP [ilo_y y_ihi] := uniform_in_range (st := st1) unit_u le_ilh yys.
have xr : x \is Num.real by rewrite -(ger_real lo_x) in lo_real *.
have yr : y \is Num.real by rewrite -(ger_real ilo_y) in ilo_real *.
have [-> ->] := Re_Im_rect xr yr.
by rewrite lo_x x_hi ilo_y y_ihi.
Qed.

End TrainingDomain.

(** ** The properties *)

(** *** The transfer function and the full-order model *)

Section TransferProperties.

Variable K : numClosedFieldType.

Local Notation conj_mx := (map_mx (@Num.conj K)).
Local Notation mismatch := (ValueError
  "matmul: Input operand 1 has a mismatch in its core dimension 0").




(** X4: an n x 1 array given for A is not rejected: NumPy broadcasts it
    in [s*eye(n) - A], and [TF_exact] computes what it computes for the n x n
    matrix whose columns all equal that column. *)
Theorem TF_exact_column_A_is_broadcast (n : nat) (a : 'M[K]_(n, 1))
    (fa : bool) (B C : pyinput K) (s : K) :
  Transfer.TF_exact (as_input fa (Ndarray a)) B C s =
  Transfer.TF_exact (as_input fa (Ndarray (a *m const_mx 1 : 'M[K]_n))) B C s.
Proof.
case: fa; rewrite /Transfer.TF_exact /=; last by [].
by rewrite !scaleE subtract_column subtractE.
Qed.

(** X5: an n x k array given for A with k different from n and from 1
    makes [TF_exact] raise, whatever B, C and s: the [ValueError] of a failed
    broadcast when n > 1 (or n = 0), and for n = 1 the [LinAlgError] of the
    inversion of a matrix that is not square. *)
Theorem TF_exact_nonsquare_A_raises (n k : nat) (A : 'M[K]_(n, k))
    (B C : pyinput K) (s : K) :
  k != n -> k != 1%N ->
  Transfer.TF_exact (FromArray (Ndarray A)) B C s =
  Raise (if n == 1%N
         then LinAlgError "Last 2 dimensions of the array must be square"
         else ValueError "operands could not be broadcast together").
Proof.
move=> kn k1; rewrite /Transfer.TF_exact /=.
rewrite /subtract /broadcast_dim /= eqxx eq_sym (negbTE kn).
case: ifP => [_|_] /=; last by rewrite (negbTE k1).
by rewrite /inv /= (eq_sym n k) (negbTE kn).
Qed.

(** *** The offline phase *)

Section Offline.

Variable pod :
  VectorArray K -> option nat -> K -> K -> result (VectorArray K * seq K).

(** X6: when [rng] has neither two nor four entries no branch of [TFROM]
    assigns [training_set]: once the model is built the loop over it raises
    [UnboundLocalError], and the global generator has not been used. *)
Theorem TFROM_unassigned_training_set (model : Transfer.LTIModel K)
    (rng : seq K) (snap : nat) (rorder : option nat) (atol rtol : K)
    (st : RandomState K) :
  size rng != 2%N -> size rng != 4%N ->
  Transfer.TFROM pod model rng snap rorder atol rtol st =
  (if Transfer.MatrixModel (Transfer.lti_A model) (Transfer.lti_B model)
        (Transfer.lti_C model) is Raise e
   then Raise e else Raise UnboundLocalError, st).
Proof.
move=> r2 r4; rewrite /Transfer.TFROM.
case: (Transfer.MatrixModel _ _ _) => [model_TF|e] //.
by rewrite training_set_bad_range.
Qed.

(** X7: [TFROM] builds the model before it samples: on matrices
    that [MatrixModel] rejects (A not n x n, B not n x 1 or C without n
    columns) it raises [AssertionError] whatever the range, the number of
    snapshots and the POD, and the global generator is left as it was. *)
Theorem TFROM_rejects_before_sampling (model : Transfer.LTIModel K)
    (rng : seq K) (snap : nat) (rorder : option nat) (atol rtol : K)
    (st : RandomState K) :
  ~~ (state_input_consistent (Transfer.lti_A model) (Transfer.lti_B model) &&
      (ncols (to_array (Transfer.lti_C model)) ==
       nrows (to_array (Transfer.lti_A model)))) ->
  Transfer.TFROM pod model rng snap rorder atol rtol st =
  (Raise AssertionError, st).
Proof.
by move=> /negbTE bad; rewrite /Transfer.TFROM Transfer_MatrixModelE bad.
Qed.



(** X30: for a system A (n x n), B (n x 1), C (1 x n), given as arrays or
    as operators, when the POD of the snapshots returns n orthonormal
    vectors (the rows of R) the reduced model built by [TFROM] has, at every
    s with s I - A invertible, the output C (s I - A)^-1 B of the full-order
    system, which is also what [TF_exact] returns for the array of A. *)
Theorem TFROM_output_exact
    (n : nat) (A : 'M[K]_n) (B : 'M[K]_(n, 1)) (C : 'M[K]_(1, n))
    (fa fb fc : bool) (rng : seq K) (snap : nat) (rorder : option nat)
    (atol rtol : K) (st st' : RandomState K) (ts : seq K)
    (S : VectorArray K) (svals : seq K) (R : 'M[K]_n) (s : K) :
  let iA := as_input fa (Ndarray A) in
  let iB := as_input fb (Ndarray B) in
  let iC := as_input fc (Ndarray C) in
  let model_TF := full_order_model A B C fa fb fc in
  Transfer.training_set rng snap st = (Ok ts, st') ->
  Transfer.snapshots model_TF (empty K (order model_TF)) ts = Ok S ->
  pod S rorder atol rtol = Ok (NumpyVectorArray (Ndarray R), svals) ->
  conj_mx R *m R^T = 1%:M ->
  s *: 1%:M - A \in unitmx ->
  exists TF_ROM : stationary_model K,
    [/\ Transfer.MatrixModel iA iB iC = Ok model_TF,
        Transfer.TFROM pod (Transfer.MkLTIModel iA iB iC)
          rng snap rorder atol rtol st = (Ok TF_ROM, st'),
        output TF_ROM s = Ok (Ndarray (C *m invmx (s *: 1%:M - A) *m B))
      & Transfer.TF_exact (FromArray (Ndarray A)) iB iC s =
        Ok (Ndarray (C *m invmx (s *: 1%:M - A) *m B))].
Proof.
move=> iA iB iC model_TF Hts HS Hpod orthR unit_s.
exists (full_rank_rom A B C R); split.
- exact: Transfer_MatrixModel_typed.
- exact: TFROM_full_order Hts HS Hpod.
- exact: full_rank_output.
- exact: TF_exact_array.
Qed.

End Offline.

(** *** The reduced model *)


(** *** The reduced basis of the NumPy cell *)

(** X12: when the requested number of modes k is at most min(n, count) for
    the n x count snapshot matrix, the cell returns the n x k array of the
    first k columns of the factor U of the SVD (no column is lost by the
    slice), and these columns are orthonormal when U is unitary. *)
Theorem pod_basis_numpy_orthonormal_columns
    (svd : ndarray K -> ndarray K * seq K * ndarray K)
    (n c : nat) (S : 'M[K]_(n, c)) (U : 'M[K]_n) (D : seq K)
    (Vt : ndarray K) (k : nat) :
  svd (Ndarray S) = (Ndarray U, D, Vt) -> (k <= minn n c)%N ->
  conj_mx U^T *m U = 1%:M ->
  exists X : 'M[K]_(n, k),
    [/\ Transfer.pod_basis_numpy svd (Ndarray S) k = Ok (Ndarray X),
        forall (i : 'I_n) (j : 'I_k), X i j = item (Ndarray U) i j
      & conj_mx X^T *m X = 1%:M].
Proof.
move=> HU kmin orth; exists (leading_columns k U); split.
- exact: pod_basis_numpy_leading HU kmin.
- by move=> i j; rewrite mxE.
- by apply: leading_columns_orthonormal => //; rewrite (leq_trans kmin) ?geq_minl.
Qed.

(** *** The training set *)


End TransferProperties.

(** *** The energy criterion *)

Section EnergyEdge.

Import Transfer.

Lemma size_cumsum (x : seq float) : size (cumsum x) = size x.
Proof. by case: x => [|y x] //=; rewrite size_scanl. Qed.

(** X14: the cell that selects the number of modes raises the [ValueError]
    of [np.argmax] when there is no singular value, and otherwise returns,
    for every threshold, a number of modes between 1 and the number of
    singular values. *)
Theorem energy_modes_range (D : seq float) (theta : float) :
  if D is [::]
  then energy_modes D theta =
       Raise (ValueError "attempt to get argmax of an empty sequence")
  else exists m : nat,
         energy_modes D theta = Ok m /\ (0 < m <= size D)%N.
Proof.
case: D => [|d D] //; rewrite /energy_modes.
set flags := [seq PrimFloat.leb theta q | q <- _].
have sz : size flags = (size D).+1.
  by rewrite !size_map size_cumsum /= size_map.
exists ((if has id flags then find id flags else 0) + 1)%N; split.
  by rewrite /argmax; case: (flags) sz.
have -> : size (d :: D) = size flags by rewrite sz.
rewrite addn1; apply/andP; split=> //.
by case: ifP => [|_]; [rewrite has_find | rewrite sz].
Qed.

End EnergyEdge.

Section ProjectionProperties.

Variable K : numClosedFieldType.

Local Notation conj_mx := (map_mx (@Num.conj K)).
Local Notation mismatch := (ValueError
  "matmul: Input operand 1 has a mismatch in its core dimension 0").

(** *** The two models and their reduction *)



(** *** The projection matrices *)


(** X22: on an empty list of interpolation points (and no weights)
    [ProjectionMatrices] returns two arrays without columns, provided each
    reductor holds at least as many basis vectors as the order of its reduced
    model, whereas [exact], for A given as an array, raises the [ValueError]
    of [np.hstack] on an empty list, whatever the system and the weights. *)
Theorem empty_interpolation_list
    (pod_rom_V : stationary_model K) (pod_reductor_V : reductor K)
    (pod_rom_W : stationary_model K) (pod_reductor_W : reductor K) :
  (order pod_rom_V <= nrows (to_numpy (RB pod_reductor_V)))%N ->
  (order pod_rom_W <= nrows (to_numpy (RB pod_reductor_W)))%N ->
  Projection.ProjectionMatrices pod_rom_V pod_reductor_V
    pod_rom_W pod_reductor_W [::] [::] [::] true =
  Ok (Projection.Array (Ndarray (0 : 'M[K]_(dim (RB pod_reductor_V), 0))),
      Projection.Array (Ndarray (0 : 'M[K]_(dim (RB pod_reductor_W), 0)))) /\
  forall (A : ndarray K) (B C : pyinput K) (b c : seq K) (numpy : bool),
    Projection.exact (FromArray A) B C [::] b c numpy =
    Raise (ValueError "need at least one array to concatenate").
Proof.
move=> kV kW; split=> //.
rewrite /Projection.ProjectionMatrices /Projection.reconstructed_solutions /=.
rewrite !reconstruct_empty //=.
by rewrite ![_ *m _]thinmx0.
Qed.

(** X23: the flag [numpy] of [ProjectionMatrices] and of [exact] only
    changes the representation of the result.  When the call with
    [numpy = True] returns the arrays (X, Y), the call with [numpy = False]
    returns the vector arrays of X^T and Y^T, except that it raises pyMOR's
    [AssertionError] when X and Y do not have the same number of rows; an
    exception of the first call is raised by the second as well. *)
Theorem numpy_flag_is_representation
    (pod_rom_V : stationary_model K) (pod_reductor_V : reductor K)
    (pod_rom_W : stationary_model K) (pod_reductor_W : reductor K)
    (A B C : pyinput K) (mu b c : seq K) :
  let as_vector_arrays (r : result (Projection.pyvalue K * Projection.pyvalue K)) :=
    match r with
    | Ok (X, Y) =>
        if nrows (columns Y) == nrows (columns X)
        then Ok (Projection.VArray (NumpyVectorArray (transpose (columns X))),
                 Projection.VArray (NumpyVectorArray (transpose (columns Y))))
        else Raise AssertionError
    | Raise e => Raise e
    end in
  Projection.ProjectionMatrices pod_rom_V pod_reductor_V
    pod_rom_W pod_reductor_W mu b c false =
  as_vector_arrays
    (Projection.ProjectionMatrices pod_rom_V pod_reductor_V
       pod_rom_W pod_reductor_W mu b c true) /\
  Projection.exact A B C mu b c false =
  as_vector_arrays (Projection.exact A B C mu b c true).
Proof.
move=> as_vector_arrays; split.
- exact: ProjectionMatrices_numpy_representation.
- exact: exact_numpy_representation.
Qed.



(** *** Orthogonalization *)

Section GramFlagsAndShapes.

Variable gram_schmidt : VectorArray K -> K -> K -> K -> result (VectorArray K).

Local Notation Gram := (Projection.Gram gram_schmidt).
Local Notation tol := (Projection.check_tol K).

(** X26: the flag [numpy] of [Gram] only changes the representation of
    the result, with or without biorthogonalization: when the call with
    [numpy = True] returns the arrays (X, Y), the call with [numpy = False]
    returns the vector arrays of X^T and Y^T, and an exception of the one is
    an exception of the other. *)
Theorem Gram_numpy_flag (V W : VectorArray K) (biort : bool) :
  Gram V W biort false =
  match Gram V W biort true with
  | Ok (X, Y) =>
      Ok (Projection.VArray (NumpyVectorArray (transpose (columns X))),
          Projection.VArray (NumpyVectorArray (transpose (columns Y))))
  | Raise e => Raise e
  end.
Proof.
rewrite /Projection.Gram.
case: (gram_schmidt V 0 0 _) => [[Q_V]|e] //=.
case: (gram_schmidt W 0 0 _) => [[Q_W]|e] //=.
case: biort; last by rewrite !transposeK.
case EWtV: (matmul _ _) => [WtV|e] //=.
case EM: (inv WtV) => [M|e] //=.
case EV: (matmul _ M) => [Vb|e] //=.
have [/= eW _ _] := matmul_ok EWtV.
have [_ /= eV _] := matmul_ok EV.
by rewrite /make_array /assert /= eqxx /= eV eW eqxx /= transposeK.
Qed.

(** X27: the biorthogonalization needs as many orthonormalized vectors in
    W as in V, of the same dimension.  When Gram-Schmidt returns the n x r
    array Vo for V and the n' x q array Wo for W, [Gram] with [biort = True]
    raises the [ValueError] of the product Wo^T Vo when n' differs from n,
    and the [LinAlgError] of the inversion of a matrix that is not square
    when n' = n and q differs from r. *)
Theorem Gram_biort_needs_equal_shapes (V W : VectorArray K)
    (n n' r q : nat) (Vo : 'M[K]_(n, r)) (Wo : 'M[K]_(n', q))
    (numpy : bool) :
  gram_schmidt V 0 0 tol = Ok (NumpyVectorArray (Ndarray Vo^T)) ->
  gram_schmidt W 0 0 tol = Ok (NumpyVectorArray (Ndarray Wo^T)) ->
  (n' != n) || (q != r) ->
  Gram V W true numpy =
  Raise (if n' != n then mismatch
         else LinAlgError "Last 2 dimensions of the array must be square").
Proof.
move=> HV HW; case: ifP => [nn _|/negbFE /eqP nn /= qr].
  exact: Gram_biort_unequal_dimensions HV HW nn.
by move: Wo HW; rewrite nn => Wo HW; apply: Gram_biort_unequal_sizes HV HW qr.
Qed.

End GramFlagsAndShapes.

(** *** The comparison of the projection matrices *)

(** X28: for arrays that are not empty and the norms [np.inf] and [1],
    [error] prints 0 for V exactly when V_exact and V are equal, and 0 for W
    exactly when W_exact and W are equal, in both representations (NumPy
    arrays or pyMOR vector arrays). *)
Theorem error_zero_iff_equal (m k m' k' : nat) (Ve V : 'M[K]_(m, k))
    (We W : 'M[K]_(m', k')) (xVe xWe xV xW : Projection.pyvalue K)
    (ord : norm_order) :
  ord = OrdInf \/ ord = OrdOne ->
  Projection.to_ndarray xVe = Ndarray Ve ->
  Projection.to_ndarray xV = Ndarray V ->
  Projection.to_ndarray xWe = Ndarray We ->
  Projection.to_ndarray xW = Ndarray W ->
  (0 < m)%N -> (0 < k)%N -> (0 < m')%N -> (0 < k')%N ->
  exists error_V error_W : K,
    [/\ Projection.error xVe xWe xV xW ord = Ok (error_V, error_W),
        (error_V == 0) = (Ve == V) & (error_W == 0) = (We == W)].
Proof.
move=> sums EVe EV EWe EW m0 k0 m0' k0'.
have [eV [HV zV]] := linalg_norm_eq0 (Ve - V) sums m0 k0.
have [eW [HW zW]] := linalg_norm_eq0 (We - W) sums m0' k0'.
exists eV, eW; rewrite (errorE ord EVe EV EWe EW) HV /= HW /=.
by rewrite zV zW !subr_eq0.
Qed.

(** X29: [error] does not transpose the pyMOR representation, in which the
    vectors are the rows: on the vector arrays that the notebook functions
    return with [numpy = False], the norm [np.inf] measures what the norm [1]
    measures on the arrays returned with [numpy = True] (the largest column
    sum of the moduli of V_exact - V), the norm [1] what [np.inf] measures
    there, and the Frobenius norm is the same in both. *)
Theorem error_pymor_versus_numpy (n r n' r' : nat) (Ve V : 'M[K]_(n, r))
    (We W : 'M[K]_(n', r')) :
  let pymor := returned false in
  let numpy := returned true in
  [/\ Projection.error (pymor _ _ Ve) (pymor _ _ We) (pymor _ _ V)
        (pymor _ _ W) OrdInf =
      Projection.error (numpy _ _ Ve) (numpy _ _ We) (numpy _ _ V)
        (numpy _ _ W) OrdOne,
      Projection.error (pymor _ _ Ve) (pymor _ _ We) (pymor _ _ V)
        (pymor _ _ W) OrdOne =
      Projection.error (numpy _ _ Ve) (numpy _ _ We) (numpy _ _ V)
        (numpy _ _ W) OrdInf
    & Projection.error (pymor _ _ Ve) (pymor _ _ We) (pymor _ _ V)
        (pymor _ _ W) OrdFro =
      Projection.error (numpy _ _ Ve) (numpy _ _ We) (numpy _ _ V)
        (numpy _ _ W) OrdFro].
Proof.
move=> pymor numpy.
have pymorE ord :
    Projection.error (pymor _ _ Ve) (pymor _ _ We) (pymor _ _ V) (pymor _ _ W) ord =
    (error_V <- linalg_norm (Ndarray (Ve - V)^T) ord ;;
     error_W <- linalg_norm (Ndarray (We - W)^T) ord ;;
     Ok (error_V, error_W)).
  by rewrite (errorE (Ve := Ve^T) (V := V^T) (We := We^T) (W := W^T)) // !raddfB.
have numpyE ord :
    Projection.error (numpy _ _ Ve) (numpy _ _ We) (numpy _ _ V) (numpy _ _ W) ord =
    (error_V <- linalg_norm (Ndarray (Ve - V)) ord ;;
     error_W <- linalg_norm (Ndarray (We - W)) ord ;;
     Ok (error_V, error_W)).
  by rewrite (errorE (Ve := Ve) (V := V) (We := We) (W := W)).
rewrite !pymorE !numpyE.
have [-> -> ->] := linalg_norm_tr (Ve - V).
by have [-> -> ->] := linalg_norm_tr (We - W).
Qed.

End ProjectionProperties.

(** ** Instances over the algebraic numbers *)

Section FurtherInstances.

Local Notation K := algC.

Lemma A_zero_regular : all (fun s : K => s *: 1%:M - A_zero \in unitmx) [:: 1].
Proof. by rewrite /= A_zero_unit. Qed.

Lemma halves_unit_interval (i : nat) : 0 <= stream halves i < 1.
Proof. by rewrite /= invr_ge0 ler0n invf_lt1 ?ltr0n // ltr1n. Qed.

Lemma gram_schmidt_no_vector :
  gram_schmidt 1 (NumpyVectorArray (Ndarray W_none^T)) 0 0
    (Projection.check_tol K) =
  Ok (NumpyVectorArray (Ndarray W_none^T)).
Proof.
apply: gram_schmidt_orthonormal_id => //; first by case.
by rewrite /Projection.check_tol invr_gt0 exprn_gt0 // ltr0n.
Qed.




Lemma TF_exact_nonsquare_A_raises_witness :
  Transfer.TF_exact (FromArray (Ndarray A_2x3)) (FromArray B_two_rows)
    (FromArray (Ndarray C_one)) 1 =
  Raise (if 2%N == 1%N
         then LinAlgError "Last 2 dimensions of the array must be square"
         else ValueError "operands could not be broadcast together").
Proof.
apply: TF_exact_nonsquare_A_raises.
- by [].
- by [].
Defined.

Lemma TFROM_unassigned_training_set_witness :
  let model := Transfer.MkLTIModel (FromArray (Ndarray A_zero))
                 (FromArray (Ndarray B_one)) (FromArray (Ndarray C_one)) in
  Transfer.TFROM pod_id model [:: 0; 1; 2] 1 None 0 0 halves =
  (if Transfer.MatrixModel (Transfer.lti_A model) (Transfer.lti_B model)
        (Transfer.lti_C model) is Raise e
   then Raise e else Raise UnboundLocalError, halves).
Proof.
apply: TFROM_unassigned_training_set.
- by [].
- by [].
Defined.

Lemma TFROM_rejects_before_sampling_witness :
  Transfer.TFROM pod_id
    (Transfer.MkLTIModel (FromArray (Ndarray A_zero)) (FromArray B_two_rows)
       (FromArray (Ndarray C_one)))
    [:: 0; 2] 1 None 0 0 halves =
  (Raise AssertionError, halves).
Proof.
apply: TFROM_rejects_before_sampling.
by [].
Defined.


Lemma reduced_operator_order_one :
  (2 : K) *: 1%:M -
  map_mx Num.conj (1%:M : 'M[K]_1) *m A_zero *m (1%:M : 'M[K]_1)^T
    \in unitmx.
Proof.
rewrite /A_zero mulmx0 mul0mx subr0 scalemx1 unitmxE det_scalar unitfE expr1.
by rewrite pnatr_eq0.
Qed.


Lemma TFROM_output_exact_witness :
  exists TF_ROM : stationary_model K,
    [/\ Transfer.MatrixModel (as_input false (Ndarray A_zero))
          (as_input true (Ndarray B_one)) (as_input false (Ndarray C_one)) =
        Ok (full_order_model A_zero B_one C_one false true false),
        Transfer.TFROM pod_id
          (Transfer.MkLTIModel (as_input false (Ndarray A_zero))
             (as_input true (Ndarray B_one)) (as_input false (Ndarray C_one)))
          [:: 0; 2] 1 None 0 0 halves =
        (Ok TF_ROM, MkRandomState (fun _ => 2^-1) 1),
        output TF_ROM 1 = Ok (Ndarray (C_one *m invmx (1 *: 1%:M - A_zero) *m B_one))
      & Transfer.TF_exact (FromArray (Ndarray A_zero))
          (as_input true (Ndarray B_one)) (as_input false (Ndarray C_one)) 1 =
        Ok (Ndarray (C_one *m invmx (1 *: 1%:M - A_zero) *m B_one))].
Proof.
apply: (@TFROM_output_exact _ pod_id 1 A_zero B_one C_one false true false
          [:: 0; 2] 1 None 0 0 halves _ [:: 1] _ [:: 1] 1%:M 1).
- exact: training_set_halves.
- exact: snapshots_order_one.
- by [].
- exact: orthonormal_rows_id.
- exact: A_zero_unit.
Defined.

Lemma span_order_one :
  ((1 : K) *: 1%:M - A_zero) *m ((1%:M : 'M[K]_1)^T *m B_one) = B_one.
Proof. by rewrite /A_zero subr0 scale1r mul1mx trmx1 mul1mx. Qed.

Lemma reduced_unit_order_one :
  map_mx Num.conj (1%:M : 'M[K]_1) *m ((1 : K) *: 1%:M - A_zero) *m (1%:M)^T
    \in unitmx.
Proof.
rewrite /A_zero subr0 scale1r mulmx1 trmx1 mulmx1 map_scalar_mx /= conjC1.
exact: unitmx1.
Qed.


Lemma pod_basis_numpy_orthonormal_columns_witness :
  exists X : 'M[K]_(1, 1),
    [/\ Transfer.pod_basis_numpy svd_id (Ndarray (1%:M : 'M[K]_1)) 1 =
        Ok (Ndarray X),
        forall (i : 'I_1) (j : 'I_1),
          X i j = item (Ndarray (1%:M : 'M[K]_1)) i j
      & map_mx Num.conj X^T *m X = 1%:M].
Proof.
apply: (@pod_basis_numpy_orthonormal_columns _ svd_id 1 1 1%:M 1%:M [:: 1]
          (Ndarray (1%:M : 'M[K]_1)) 1).
- by [].
- by [].
- exact: orthonormal_columns_1.
Defined.



Lemma adjoint_span_order_one :
  ((1 : K)^* *: 1%:M - map_mx Num.conj A_zero^T) *m
    ((1%:M : 'M[K]_1)^T *m C_one^T) = C_one^T.
Proof.
by rewrite /A_zero trmx0 map_mx0 subr0 conjC1 scale1r mul1mx trmx1 mul1mx.
Qed.

Lemma adjoint_reduced_unit_order_one :
  map_mx Num.conj (1%:M : 'M[K]_1) *m
    ((1 : K)^* *: 1%:M - map_mx Num.conj A_zero^T) *m (1%:M)^T \in unitmx.
Proof.
rewrite /A_zero trmx0 map_mx0 subr0 conjC1 scale1r mulmx1 trmx1 mulmx1.
by rewrite map_scalar_mx /= conjC1 unitmx1.
Qed.


Lemma empty_interpolation_list_witness :
  Projection.ProjectionMatrices
    (rom_V A_zero B_one 1%:M) (reductor_V A_zero B_one 1%:M)
    (rom_W A_zero C_one true 1%:M) (reductor_W A_zero C_one true 1%:M)
    [::] [::] [::] true =
  Ok (Projection.Array
        (Ndarray (0 : 'M[K]_(dim (RB (reductor_V A_zero B_one 1%:M)), 0))),
      Projection.Array
        (Ndarray
           (0 : 'M[K]_(dim (RB (reductor_W A_zero C_one true 1%:M)), 0)))) /\
  forall (A : ndarray K) (B C : pyinput K) (b c : seq K) (numpy : bool),
    Projection.exact (FromArray A) B C [::] b c numpy =
    Raise (ValueError "need at least one array to concatenate").
Proof.
apply: empty_interpolation_list.
- by [].
- by [].
Defined.



Lemma Gram_biort_needs_equal_shapes_witness :
  Projection.Gram (gram_schmidt 1) (NumpyVectorArray (Ndarray V_one^T))
    (NumpyVectorArray (Ndarray W_none^T)) true true =
  Raise (if 1%N != 1%N
         then ValueError
                "matmul: Input operand 1 has a mismatch in its core dimension 0"
         else LinAlgError "Last 2 dimensions of the array must be square").
Proof.
apply: (@Gram_biort_needs_equal_shapes _ (gram_schmidt 1) _ _ 1 1 1 0
          V_one W_none true).
- exact: gram_schmidt_fixes V_one_orthonormal.
- exact: gram_schmidt_no_vector.
- by [].
Defined.

Lemma error_zero_iff_equal_witness :
  exists error_V error_W : K,
    [/\ Projection.error (Projection.Array (Ndarray V_one))
          (Projection.VArray (NumpyVectorArray (Ndarray W_i)))
          (Projection.Array (Ndarray W_i))
          (Projection.VArray (NumpyVectorArray (Ndarray W_i))) OrdInf =
        Ok (error_V, error_W),
        (error_V == 0) = (V_one == W_i) & (error_W == 0) = (W_i == W_i)].
Proof.
apply: (@error_zero_iff_equal _ 1 1 1 1 V_one W_i W_i W_i).
- by left.
- by [].
- by [].
- by [].
- by [].
- by [].
- by [].
- by [].
- by [].
Defined.


End FurtherInstances.
